(** * fluxclient: robot protocol v0002 and UPnP key bootstrap

    A shallow embedding of [fluxclient/robot/v0002.py] and
    [fluxclient/upnp/base.py], and the properties of the framing, handshake,
    binary attachment, upload, raw-mode and key-fetch code that the
    specification states.

    Python values are modelled as follows: [bytes] is a list of [Byte.byte],
    [str] is a list of code points, [int] is [Z].  Every method that raises
    or touches a socket runs in a state-and-exception monad whose state
    survives a raise, as the Python objects do. *)

From Stdlib Require Import ZArith NArith List Lia Bool String Ascii.
From Stdlib Require Import Strings.Byte DecimalString.
From Stdlib Require Import Sorted.
Import ListNotations.
Local Open Scope Z_scope.

(** ** Python primitives *)

Module Py.

Definition bytes := list byte.
Definition str := list N.

(** A [str] literal, and a [bytes] literal ([b"..."]). *)
Definition lit (s : string) : str := map N_of_ascii (list_ascii_of_string s).
Definition blit (s : string) : bytes := list_byte_of_string s.

Definition len {A} (l : list A) : Z := Z.of_nat (List.length l).

Definition byte_to_Z (b : byte) : Z := Z.of_N (Byte.to_N b).
Definition byte_of_Z (z : Z) : byte :=
  match Byte.of_N (Z.to_N z) with Some b => b | None => x00 end.

Fixpoint str_eqb (a b : str) : bool :=
  match a, b with
  | [], [] => true
  | x :: a', y :: b' => N.eqb x y && str_eqb a' b'
  | _, _ => false
  end.

Fixpoint bytes_eqb (a b : bytes) : bool :=
  match a, b with
  | [], [] => true
  | x :: a', y :: b' => Byte.eqb x y && bytes_eqb a' b'
  | _, _ => false
  end.

(** [s.startswith(p)] *)
Fixpoint startswith (p s : str) : bool :=
  match p, s with
  | [], _ => true
  | x :: p', y :: s' => N.eqb x y && startswith p' s'
  | _ :: _, [] => false
  end.

(** [s.split(sep)] with a one-character separator: empty fields are kept and
    the result is never empty. *)
Fixpoint split (sep : N) (s : str) : list str :=
  match s with
  | [] => [[]]
  | c :: s' =>
      if N.eqb c sep then [] :: split sep s'
      else match split sep s' with
           | t :: ts => (c :: t) :: ts
           | [] => [[c]]
           end
  end.

(** [sep.join(parts)] *)
Fixpoint join (sep : N) (parts : list str) : str :=
  match parts with
  | [] => []
  | [p] => p
  | p :: ps => p ++ sep :: join sep ps
  end.

(** [b.split(sep, 1)]: at most one cut, at the first separator. *)
Fixpoint bsplit1 (sep : byte) (b : bytes) : list bytes :=
  match b with
  | [] => [[]]
  | c :: b' =>
      if Byte.eqb c sep then [[]; b']
      else match bsplit1 sep b' with
           | t :: ts => (c :: t) :: ts
           | [] => [[c]]
           end
  end.

(** Slices [l[lo:hi]]; an absent bound is [None], a negative one counts from
    the end, and both are clipped to the sequence. *)
Definition norm_index (n i : Z) : Z :=
  if i <? 0 then Z.max 0 (n + i) else Z.min i n.

Definition slice {A} (lo hi : option Z) (l : list A) : list A :=
  let n := len l in
  let a := match lo with None => 0 | Some i => norm_index n i end in
  let b := match hi with None => n | Some j => norm_index n j end in
  firstn (Z.to_nat (b - a)) (skipn (Z.to_nat a) l).

Fixpoint drop_nul (b : bytes) : bytes :=
  match b with
  | x00 :: b' => drop_nul b'
  | _ => b
  end.

(** [b.rstrip(b"\x00")] *)
Definition rstrip_nul (b : bytes) : bytes := rev (drop_nul (rev b)).

(** [struct.pack("<H", l)]; [None] is [struct.error] (value out of range). *)
Definition pack_H (l : Z) : option bytes :=
  if (0 <=? l) && (l <=? 65535)
  then Some [byte_of_Z (l mod 256); byte_of_Z (l / 256)]
  else None.

(** [struct.unpack("<H", b)[0]]; [None] is [struct.error] (wrong size). *)
Definition unpack_H (b : bytes) : option Z :=
  match b with
  | [lo; hi] => Some (byte_to_Z lo + 256 * byte_to_Z hi)
  | _ => None
  end.

(** [struct.unpack("<BB", b)] *)
Definition unpack_BB (b : bytes) : option (Z * Z) :=
  match b with
  | [c; s] => Some (byte_to_Z c, byte_to_Z s)
  | _ => None
  end.

(** [b.decode("ascii", "ignore")]: bytes above 127 are dropped. *)
Definition decode_ascii_ignore (b : bytes) : str :=
  map Byte.to_N (filter (fun c => N.ltb (Byte.to_N c) 128) b).

(** [ord(b)] of a [bytes] value; [None] is [TypeError] (length is not 1). *)
Definition ord (b : bytes) : option Z :=
  match b with
  | [c] => Some (byte_to_Z c)
  | _ => None
  end.

(** [int(s)] for the ASCII forms: surrounding white space, an optional sign
    and decimal digits, single underscores allowed between digits.  [None]
    is [ValueError].  CPython also takes non-ASCII white space and digits;
    those strings are [None] here. *)
Definition is_space (c : N) : bool :=
  (N.leb 9 c && N.leb c 13) || (N.leb 28 c && N.leb c 32).

Definition is_digit (c : N) : bool := N.leb 48 c && N.leb c 57.

Fixpoint lstrip (s : str) : str :=
  match s with
  | c :: s' => if is_space c then lstrip s' else s
  | [] => []
  end.

Definition strip (s : str) : str := rev (lstrip (rev (lstrip s))).

(** Digits of a numeral body; [after_digit] says whether an underscore may
    come next. *)
Fixpoint digits (after_digit : bool) (acc : Z) (s : str) : option Z :=
  match s with
  | [] => if after_digit then Some acc else None
  | c :: s' =>
      if is_digit c then digits true (10 * acc + (Z.of_N c - 48)) s'
      else if N.eqb c 95 && after_digit then digits false acc s'
      else None
  end.

Definition int (s : str) : option Z :=
  match strip s with
  | 45 :: body => option_map Z.opp (digits false 0 body)
  | 43 :: body => digits false 0 body
  | body => digits false 0 body
  end%N.

(** [s.split(sep, 1)] on text: at most one cut, at the first separator. *)
Fixpoint split1 (sep : N) (s : str) : list str :=
  match s with
  | [] => [[]]
  | c :: s' =>
      if N.eqb c sep then [[]; s']
      else match split1 sep s' with
           | t :: ts => (c :: t) :: ts
           | [] => [[c]]
           end
  end.

End Py.

Import Py.

(** ** Exceptions and the effect monad *)

Inductive exn : Type :=
| RuntimeError (args : list str)
| RobotError (args : list str)
| TimeoutError (args : list str)
| SocketError (errno : Z) (msg : str)
| StructError
| TypeError
| ValueError
| AssertionError
| UnicodeError
| AttributeError
| CryptoError.

Definition EPIPE : Z := 32.

(** How a call ends: it returns, it raises, or it never does either. *)
Inductive outcome (A : Type) : Type :=
| Ret (a : A)
| Raise (e : exn)
| Diverge.
Arguments Ret {A} a.
Arguments Raise {A} e.
Arguments Diverge {A}.

Definition M (S A : Type) : Type := S -> outcome A * S.

Definition ret {S A} (a : A) : M S A := fun s => (Ret a, s).
Definition raise {S A} (e : exn) : M S A := fun s => (Raise e, s).
Definition diverge {S A} : M S A := fun s => (Diverge, s).
Definition bind {S A B} (m : M S A) (k : A -> M S B) : M S B :=
  fun s =>
    match m s with
    | (Ret a, s') => k a s'
    | (Raise e, s') => (Raise e, s')
    | (Diverge, s') => (Diverge, s')
    end.
Definition modify {S} (f : S -> S) : M S unit := fun s => (Ret tt, f s).
Definition gets {S A} (f : S -> A) : M S A := fun s => (Ret (f s), s).

(** A primitive that may fail with a fixed exception. *)
Definition orraise {S A} (e : exn) (o : option A) : M S A :=
  match o with Some a => ret a | None => raise e end.

Declare Scope eff_scope.
Delimit Scope eff_scope with eff.
Notation "x <- m ;; k" := (bind m (fun x => k))
  (at level 61, m at next level, right associativity) : eff_scope.
Notation "m ;;; k" := (bind m (fun _ => k))
  (at level 61, right associativity) : eff_scope.
Local Open Scope eff_scope.

(** ** Interfaces of the collaborators *)

(** The text codecs of the Python runtime that the code calls, and
    [json.loads].  [None] stands for the exception the call raises. *)
Class Codec : Type := {
  utf8_encode : str -> option bytes;
  utf8_decode : bytes -> option str;
  utf8_decode_ignore : bytes -> str;
  json : Type;
  json_loads : str -> option json;
  json_truthy : json -> bool
}.

(** Modelled from the spec: the CryptoFacility interface of section 6, which
    the code reaches as [fluxclient.encryptor]; that module is not among the
    sources, so its operations are parameters. *)
Class Encryptor `{Codec} : Type := {
  keyobj : Type;
  get_or_create_keyobj : keyobj;
  get_access_id : keyobj -> str;
  get_access_id_binary : keyobj -> bytes;
  sign : keyobj -> bytes -> bytes;
  rsa_size : keyobj -> Z;
  rsa_encrypt : keyobj -> bytes -> bytes;
  rsa_decrypt : keyobj -> bytes -> option bytes;
  validate_signature : keyobj -> bytes -> bytes -> bool;
  load_keyobj : json -> option keyobj
}.

(** A codec for 7-bit traffic, on which UTF-8 and ASCII coincide; it
    rejects everything else.  JSON documents are kept as their text. *)
Definition all_ascii (s : str) : bool := forallb (fun c => N.ltb c 128) s.

Definition ascii_encode (s : str) : option bytes :=
  if all_ascii s then Some (map (fun c => byte_of_Z (Z.of_N c)) s) else None.

Definition ascii_decode (b : bytes) : option str :=
  if all_ascii (map Byte.to_N b) then Some (map Byte.to_N b) else None.

Definition ascii_codec : Codec := {|
  utf8_encode := ascii_encode;
  utf8_decode := ascii_decode;
  utf8_decode_ignore := decode_ascii_ignore;
  json := str;
  json_loads := fun s => Some s;
  json_truthy := fun s => negb (str_eqb s [])
|}.

(** A toy [Encryptor] over [ascii_codec]: keys are byte strings, a signature
    is the key followed by the message, RSA is the identity on 48-byte
    blocks.  It only serves to run the model on concrete traffic. *)
Definition toy_encryptor : @Encryptor ascii_codec := {|
  keyobj := bytes;
  get_or_create_keyobj := blit "client";
  get_access_id := fun k => decode_ascii_ignore k;
  get_access_id_binary := fun k => k;
  sign := fun k m => k ++ m;
  rsa_size := fun _ => 48;
  rsa_encrypt := fun _ m => m;
  rsa_decrypt := fun _ c => Some c;
  validate_signature := fun k m s => bytes_eqb s (k ++ m);
  load_keyobj := fun j : @json ascii_codec => ascii_encode j
|}.

(** ** The world the robot client runs in *)

(** A connected stream socket.  [rx] holds the segments that will still
    arrive, in order, followed by end of stream; an empty segment carries
    nothing.  [tx] holds the buffers given to [send], oldest first.  [ready]
    holds the outcomes of the coming [select] calls ([true]: readable before
    the timeout); once used up the socket is readable.  [asked] holds the
    buffer size of every [recv] so far. *)
Record Socket : Type := mkSocket {
  rx : list bytes;
  tx : list bytes;
  ready : list bool;
  asked : list Z
}.

Inductive level : Type := ERROR | WARNING | INFO | DEBUG.
Inductive pyval : Type := VStr (s : str) | VInt (z : Z).

(** A logging call: level, format string and the values formatted into it. *)
Definition logrec : Type := level * str * list pyval.

(** [sock] is the connection, [source] the results of the coming
    [stream.read] calls of an upload (then end of file), [clock] the coming
    readings of [time()] in milliseconds, [progress] the calls received by
    the recording progress callback, [yielded] the entries a generator has
    handed out, [log] the logging calls. *)
Record World : Type := mkWorld {
  sock : Socket;
  source : list bytes;
  clock : list Z;
  progress : list (Z * Z);
  yielded : list (bool * str);
  log : list logrec
}.

Definition with_sock (f : Socket -> Socket) (w : World) : World :=
  mkWorld (f (sock w)) (source w) (clock w) (progress w) (yielded w) (log w).
Definition with_source (v : list bytes) (w : World) : World :=
  mkWorld (sock w) v (clock w) (progress w) (yielded w) (log w).
Definition with_clock (v : list Z) (w : World) : World :=
  mkWorld (sock w) (source w) v (progress w) (yielded w) (log w).
Definition with_progress (v : list (Z * Z)) (w : World) : World :=
  mkWorld (sock w) (source w) (clock w) v (yielded w) (log w).
Definition with_yielded (v : list (bool * str)) (w : World) : World :=
  mkWorld (sock w) (source w) (clock w) (progress w) v (log w).
Definition with_log (v : list logrec) (w : World) : World :=
  mkWorld (sock w) (source w) (clock w) (progress w) (yielded w) v.

(** The bytes still to arrive on the connection. *)
Definition pending (w : World) : bytes := List.concat (rx (sock w)).

(** A world whose connection will deliver [segs] and nothing else. *)
Definition incoming (segs : list bytes) : World :=
  mkWorld (mkSocket segs [] [] []) [] [] [] [] [].

(** *** Socket primitives *)

(** What one plain [recv(n)] takes: at most [n] bytes of the first segment
    that carries data; nothing at end of stream. *)
Fixpoint take_segment (n : nat) (segs : list bytes) : bytes * list bytes :=
  match segs with
  | [] => ([], [])
  | [] :: rest => take_segment n rest
  | seg :: rest => (firstn n seg, skipn n seg :: rest)
  end.

(** What [recv(n, MSG_WAITALL)] takes: [n] bytes across segments, fewer only
    at end of stream. *)
Fixpoint take_all (n : nat) (segs : list bytes) : bytes * list bytes :=
  match segs with
  | [] => ([], [])
  | seg :: rest =>
      if (List.length seg <=? n)%nat
      then let (b, r) := take_all (n - List.length seg) rest in (seg ++ b, r)
      else (firstn n seg, skipn n seg :: rest)
  end.

Definition sock_send (buf : bytes) : M World unit :=
  modify (with_sock (fun s => mkSocket (rx s) (tx s ++ [buf]) (ready s) (asked s))).

Definition recv_with (take : nat -> list bytes -> bytes * list bytes) (n : Z)
  : M World bytes :=
  fun w =>
    if n <? 0 then (Raise ValueError, w)
    else
      let (b, rest) := take (Z.to_nat n) (rx (sock w)) in
      (Ret b,
       with_sock (fun s => mkSocket rest (tx s) (ready s) (asked s ++ [n])) w).

Definition sock_recv : Z -> M World bytes := recv_with take_segment.
Definition sock_recv_waitall : Z -> M World bytes := recv_with take_all.

(** [select((sock,), (), (), timeout)[0]] as a truth value.  The timeout (in
    milliseconds) is what the oracle [ready] answers for. *)
Definition select_readable (timeout : Z) : M World bool :=
  fun w =>
    match ready (sock w) with
    | [] => (Ret true, w)
    | r :: rs =>
        (Ret r, with_sock (fun s => mkSocket (rx s) (tx s) rs (asked s)) w)
    end.

Definition logf (l : level) (fmt : string) (args : list pyval) : M World unit :=
  modify (fun w => with_log (log w ++ [(l, lit fmt, args)]) w).

(** [time()] *)
Definition time : M World Z :=
  fun w =>
    match clock w with
    | [] => (Ret 0, w)
    | t :: ts => (Ret t, with_clock ts w)
    end.

(** [stream.read(n)] on the upload source: at most [n] bytes of the next
    read result, the remainder staying in front; an empty result is a
    zero-length read. *)
Definition stream_read (n : Z) : M World bytes :=
  fun w =>
    match source w with
    | [] => (Ret [], w)
    | c :: rest =>
        if len c <=? n then (Ret c, with_source rest w)
        else (Ret (firstn (Z.to_nat n) c),
              with_source (skipn (Z.to_nat n) c :: rest) w)
    end.

(** A progress callback receives [sent] and [length]. *)
Definition callback : Type := Z -> Z -> M World unit.

Definition record_progress : callback :=
  fun sent length => modify (fun w => with_progress (progress w ++ [(sent, length)]) w).

Definition yield (e : bool * str) : M World unit :=
  modify (fun w => with_yielded (yielded w ++ [e]) w).

(** ["%i" % z] *)
Definition str_of_int (z : Z) : str :=
  lit (DecimalString.NilZero.string_of_int (Z.to_int z)).

(** ** robot/v0002.py *)

Module Robot.

(** The arguments [raise_error(ret)] gives to [RuntimeError]. *)
Definition error_args (ret_ : str) : list str :=
  if startswith (lit "error ") ret_
  then tl (split 32 ret_)
  else [lit "UNKNOW_ERROR"; ret_].

Definition raise_error {A} (ret_ : str) : M World A :=
  raise (RuntimeError (error_args ret_)).

(** Code and arguments of a structured failure. *)
Definition error_code (e : exn) : option str :=
  match e with RuntimeError (c :: _) => Some c | _ => None end.
Definition error_rest (e : exn) : list str :=
  match e with RuntimeError (_ :: a) => a | _ => [] end.

(** Modelled from the spec: [RobotSocketV2] of [sock_v0002.py], which is not
    among the sources: the EncryptedTransport holding the 32-byte key and
    the 16-byte initialization vector; the framing layer sees the plain
    bytes it exchanges, which is what [sock] of the world carries. *)
Record RobotSocketV2 : Type := mkRobotSocketV2 {
  aes_key : bytes;
  aes_iv : bytes
}.

Section WithCollaborators.
Context `{E : Encryptor}.

(** The decorator [ok_or_error(fn)] with its default [resp="ok"]. *)
Definition ok_or_error (fn : M World bytes) : M World str :=
  b <- fn ;;
  let ret_ := utf8_decode_ignore b in
  if str_eqb ret_ (lit "ok") then ret ret_ else raise_error ret_.

(** [FluxRobotV0002.__init__]; the result is [self.sock].
    [sock.settimeout(300)] has no counterpart: a silent peer is an end of
    stream here. *)
Definition __init__ (server_key : option keyobj) : M World RobotSocketV2 :=
  buf <- sock_recv 4096 ;;
  let sign_ := slice (Some 8) (Some (-128)) buf in
  let randbytes := slice (Some (-128)) None buf in
  match server_key with
  | Some _ => logf ERROR "Warning: server key checking not implement!" []
  | None => logf WARNING "Warning: can not validate remote" []
  end ;;;
  let rsakey := get_or_create_keyobj in
  logf INFO "Protocol: FLUX0002" [] ;;;
  logf INFO "Access ID: %s" [VStr (get_access_id rsakey)] ;;;
  let buf := get_access_id_binary rsakey ++ sign rsakey randbytes in
  sock_send buf ;;;
  raw <- sock_recv_waitall 16 ;;
  status <- orraise UnicodeError (utf8_decode (rstrip_nul raw)) ;;
  if str_eqb status (lit "OK") then
    aes_enc_init <- sock_recv_waitall (rsa_size rsakey) ;;
    aes_init <- orraise CryptoError (rsa_decrypt rsakey aes_enc_init) ;;
    ret (mkRobotSocketV2 (slice None (Some 32) aes_init)
                         (slice (Some 32) (Some 48) aes_init))
  else raise (RuntimeError [lit "Handshake failed: " ++ status]).

Definition _send_cmd (buf : bytes) : M World unit :=
  let l := len buf + 2 in
  prefix <- orraise StructError (pack_H l) ;;
  sock_send (prefix ++ buf).

Definition get_resp (timeout : Z) : M World bytes :=
  rl <- select_readable timeout ;;
  if negb rl then raise (TimeoutError [lit "get resp timeout"])
  else
    bml <- sock_recv_waitall 2 ;;
    match bml with
    | [] => raise (SocketError EPIPE (lit "Broken pipe"))
    | _ =>
        message_length <- orraise StructError (unpack_H bml) ;;
        sock_recv_waitall message_length
    end.

Definition default_timeout : Z := 30000.

Definition _make_cmd (buf : bytes) : M World bytes :=
  _send_cmd buf ;;; get_resp default_timeout.

(** The [while left > 0] loop of [recv_binary]; [fuel] bounds the number of
    iterations the model follows. *)
Fixpoint recv_binary_loop (fuel : nat) (left : Z) (buf : bytes)
  : M World bytes :=
  if 0 <? left then
    match fuel with
    | O => diverge
    | S fuel' =>
        chunk <- sock_recv (Z.min 4096 left) ;;
        recv_binary_loop fuel' (left - len chunk) (buf ++ chunk)
    end
  else ret buf.

Definition recv_binary (fuel : nat) (binary_header : str)
  : M World (str * bytes) :=
  match split 32 binary_header with
  | [mn; mimetype; ssize] =>
      if negb (str_eqb mn (lit "binary")) then raise AssertionError
      else
        size <- orraise ValueError (int ssize) ;;
        logf DEBUG "Recv %s %i" [VStr mimetype; VInt size] ;;;
        buf <- recv_binary_loop fuel size [] ;;
        ret (mimetype, buf)
  | _ => raise ValueError
  end.

(** The [for node in files.split("\x00")] loop of [list_files]. *)
Fixpoint yield_nodes (nodes : list str) : M World unit :=
  match nodes with
  | [] => ret tt
  | node :: rest =>
      (if startswith (lit "D") node then yield (true, slice (Some 1) None node)
       else if startswith (lit "F") node then yield (false, slice (Some 1) None node)
       else ret tt) ;;;
      yield_nodes rest
  end.

(** [list_files] is a generator; this is what iterating it to the end does.
    The entries it hands out are appended to [yielded]. *)
Definition list_files (entry path : str) : M World unit :=
  bentry <- orraise UnicodeError (utf8_encode entry) ;;
  bpath <- orraise UnicodeError (utf8_encode path) ;;
  _send_cmd (blit "ls " ++ bentry ++ blit " " ++ bpath) ;;;
  bresp <- get_resp default_timeout ;;
  let resp := decode_ascii_ignore bresp in
  if str_eqb resp (lit "continue") then
    bfiles <- get_resp default_timeout ;;
    let files := utf8_decode_ignore bfiles in
    blast <- get_resp default_timeout ;;
    let last_resp := decode_ascii_ignore blast in
    (if negb (str_eqb last_resp (lit "ok"))
     then raise_error (lit "error PROTOCOL_ERROR NOT_OK")
     else ret tt) ;;;
    yield_nodes (split 0 files)
  else raise_error resp.

(** The statement [if progress_callback and time() - ts > 1.0: ...] inside
    the loop of [upload_stream]; it returns the new [ts].  One second is
    1000 clock units, and the clock is read only when there is a
    callback. *)
Definition throttled_progress (progress_callback : option callback)
    (sent length ts : Z) : M World Z :=
  match progress_callback with
  | Some cb =>
      now <- time ;;
      if now - ts >? 1000
      then ts <- time ;; cb sent length ;;; ret ts
      else ret ts
  | None => ret ts
  end.

(** The [while sent < length] loop of [upload_stream]; it returns the final
    [sent]. *)
Fixpoint upload_loop (fuel : nat) (length sent ts : Z)
    (progress_callback : option callback) : M World Z :=
  if sent <? length then
    match fuel with
    | O => diverge
    | S fuel' =>
        buf <- stream_read 4096 ;;
        let lbuf := len buf in
        if lbuf =? 0 then raise (RobotError [lit "Upload file error"])
        else
          let sent := sent + lbuf in
          sock_send buf ;;;
          ts <- throttled_progress progress_callback sent length ts ;;
          upload_loop fuel' length sent ts progress_callback
    end
  else ret sent.

Definition upload_stream (fuel : nat) (length : Z)
    (mimetype upload_to cmd : str) (progress_callback : option callback)
  : M World unit :=
  let line := cmd ++ lit " " ++ mimetype ++ lit " " ++ str_of_int length
                  ++ lit " " ++ upload_to in
  bcmd <- orraise UnicodeError (utf8_encode line) ;;
  bret <- _make_cmd bcmd ;;
  let upload_ret := decode_ascii_ignore bret in
  (if str_eqb upload_ret (lit "continue")
   then logf INFO "%s" [VStr upload_ret] else ret tt) ;;;
  if negb (str_eqb upload_ret (lit "continue"))
  then raise (RuntimeError [upload_ret])
  else
    logf DEBUG "Upload stream length: %i" [VInt length] ;;;
    sent <- upload_loop fuel length 0 0 progress_callback ;;
    match progress_callback with
    | Some cb => cb sent length
    | None => raise TypeError
    end ;;;
    final_ret <- get_resp default_timeout ;;
    logf DEBUG "File uploaded" [] ;;;
    if negb (bytes_eqb final_ret (blit "ok"))
    then raise_error (decode_ascii_ignore final_ret)
    else ret tt.

(** The [while True] loop of [quit_raw_mode]. *)
Fixpoint resync (fuel : nat) (sync : Z) : M World unit :=
  match fuel with
  | O => diverge
  | S fuel' =>
      b <- sock_recv 1 ;;
      ret_ <- orraise TypeError (ord b) ;;
      if sync >? 8 then
        if ret_ >? 0 then ret tt else resync fuel' sync
      else
        if ret_ =? 0 then resync fuel' (sync + 1) else resync fuel' sync
  end.

Definition quit_raw_mode (fuel : nat) : M World str :=
  ok_or_error
    (sock_send (blit "quit") ;;;
     resync fuel 0 ;;;
     get_resp default_timeout).

(** [s.encode()] *)
Definition encode (s : str) : M World bytes :=
  orraise UnicodeError (utf8_encode s).

Definition position : M World str :=
  b <- _make_cmd (blit "position") ;;
  let ret_ := decode_ascii_ignore b in
  if startswith (lit "error ") ret_
  then raise (RuntimeError (tl (split 32 ret_)))
  else ret ret_.

Definition select_file (entry path : str) : M World str :=
  ok_or_error
    (bentry <- encode entry ;;
     bpath <- encode path ;;
     _send_cmd (blit "select " ++ bentry ++ blit " " ++ bpath) ;;;
     get_resp default_timeout).

(** [dict(pairs)] for [str] keys and values, as the list of its items in
    insertion order; a key set again keeps its place and takes the new
    value. *)
Definition dict : Type := list (str * str).

Fixpoint dict_set (k v : str) (d : dict) : dict :=
  match d with
  | [] => [(k, v)]
  | (k', v') :: d' =>
      if str_eqb k k' then (k, v) :: d' else (k', v') :: dict_set k v d'
  end.

(** [dict(items)] started from [d]; [None] is the [ValueError] for an item
    that is not a pair. *)
Fixpoint dict_update (items : list (list str)) (d : dict) : option dict :=
  match items with
  | [] => Some d
  | [k; v] :: rest => dict_update rest (dict_set k v d)
  | _ :: _ => None
  end.

(** [fileinfo] returns the list [info]: the metadata and the attachment, or
    [None] in its place. *)
Definition fileinfo (fuel : nat) (entry path : str)
  : M World (dict * option (str * bytes)) :=
  bentry <- encode entry ;;
  bpath <- encode path ;;
  _send_cmd (blit "fileinfo " ++ bentry ++ blit " " ++ bpath) ;;;
  b <- get_resp default_timeout ;;
  let resp := utf8_decode_ignore b in
  after <- (if startswith (lit "binary ") resp then
              blob <- recv_binary fuel resp ;;
              b' <- get_resp default_timeout ;;
              ret (utf8_decode_ignore b', Some blob)
            else ret (resp, None)) ;;
  let resp := fst after in
  if startswith (lit "ok ") resp then
    meta <- orraise ValueError
              (dict_update (map (split1 61) (split 0 (slice (Some 3) None resp))) []) ;;
    ret (meta, snd after)
  else raise_error resp.

Definition mkdir (entry path : str) : M World str :=
  ok_or_error
    (bentry <- encode entry ;;
     bpath <- encode path ;;
     _make_cmd (blit "mkdir " ++ bentry ++ blit " " ++ bpath)).

Definition rmdir (entry path : str) : M World str :=
  ok_or_error
    (bentry <- encode entry ;;
     bpath <- encode path ;;
     _make_cmd (blit "rmdir " ++ bentry ++ blit " " ++ bpath)).

Definition rmfile (entry path : str) : M World str :=
  ok_or_error
    (bentry <- encode entry ;;
     bpath <- encode path ;;
     _make_cmd (blit "rm " ++ bentry ++ blit " " ++ bpath)).

Definition start_play : M World str := ok_or_error (_make_cmd (blit "start")).

(** [begin_upload] returns [self.sock], the connection of the world. *)
Definition begin_upload (length : Z) (cmd : str) : M World unit :=
  let line := cmd ++ lit " " ++ lit "text/gcode" ++ lit " " ++ str_of_int length
                  ++ lit " " ++ lit "#" in
  bcmd <- encode line ;;
  bret <- _make_cmd bcmd ;;
  let upload_ret := decode_ascii_ignore bret in
  if str_eqb upload_ret (lit "continue") then ret tt
  else raise (RuntimeError [upload_ret]).

Definition md5 (filename : str) : M World str :=
  bname <- encode filename ;;
  bresp <- _make_cmd (blit "md5 " ++ bname) ;;
  let resp := decode_ascii_ignore bresp in
  if startswith (lit "md5 ") resp then ret (slice (Some 4) None resp)
  else raise_error resp.

Definition begin_scan : M World str := ok_or_error (_make_cmd (blit "scan")).
Definition quit_task : M World str := ok_or_error (_make_cmd (blit "quit")).
Definition kick : M World str := ok_or_error (_make_cmd (blit "kick")).
Definition pause_play : M World str := ok_or_error (_make_cmd (blit "pause")).
Definition abort_play : M World str := ok_or_error (_make_cmd (blit "abort")).
Definition resume_play : M World str := ok_or_error (_make_cmd (blit "resume")).

(** The [while True] loop of [oneshot], which [scanimages] repeats word for
    word; [rfuel] is the fuel of each [recv_binary]. *)
Fixpoint images_loop (rfuel fuel : nat) (images : list (str * bytes))
  : M World (list (str * bytes)) :=
  match fuel with
  | O => diverge
  | S fuel' =>
      b <- get_resp default_timeout ;;
      let resp := decode_ascii_ignore b in
      if startswith (lit "binary ") resp then
        image <- recv_binary rfuel resp ;;
        images_loop rfuel fuel' (images ++ [image])
      else if str_eqb resp (lit "ok") then ret images
      else raise (RuntimeError [resp])
  end.

Definition oneshot (rfuel fuel : nat) : M World (list (str * bytes)) :=
  _send_cmd (blit "oneshot") ;;;
  images_loop rfuel fuel [].

Definition scanimages (rfuel fuel : nat) : M World (list (str * bytes)) :=
  _send_cmd (blit "scanimages") ;;;
  images_loop rfuel fuel [].

Definition scan_next (resolution : Z) : M World str :=
  ok_or_error (_make_cmd (blit "scan_next")).

Definition scan_backward : M World str :=
  ok_or_error (_make_cmd (blit "scan_forword")).

Definition begin_maintain : M World str := ok_or_error (_make_cmd (blit "maintain")).
Definition maintain_home : M World str := ok_or_error (_make_cmd (blit "home")).
Definition maintain_reset_mb : M World str :=
  ok_or_error (_make_cmd (blit "reset_mb")).

(** [raw_mode] returns [self.sock], the connection of the world. *)
Definition raw_mode : M World unit :=
  ret_ <- _make_cmd (blit "raw") ;;
  if bytes_eqb ret_ (blit "continue") then ret tt
  else raise_error (decode_ascii_ignore ret_).

End WithCollaborators.

End Robot.

(** ** upnp/base.py *)

Module Upnp.

(** What the next [select] on the datagram socket finds: a datagram, or
    nothing before the timeout. *)
Inductive event : Type :=
| Datagram (data : bytes)
| Silence.

(** The datagram socket: [inbox] holds the coming events (then silence for
    ever), [outbox] the payloads given to [sendto], oldest first.  The
    [print] calls of the code are left out. *)
Record Net : Type := mkNet {
  inbox : list event;
  outbox : list bytes
}.

(** [struct.pack] of an ["<n>s"] field: cut or padded with NUL to [n]. *)
Definition pack_s (n : nat) (b : bytes) : bytes := firstn n (b ++ repeat x00 n).

(** [struct.pack('<4s16sB', b"FLUX", serial, req_code)] *)
Definition pack_header (serial : bytes) (req_code : Z) : option bytes :=
  if (0 <=? req_code) && (req_code <=? 255)
  then Some (pack_s 4 (blit "FLUX") ++ pack_s 16 serial ++ [byte_of_Z req_code])
  else None.

Section WithCollaborators.
Context `{E : Encryptor}.

(** [misc.CODE_RSA_KEY] and [misc.CODE_RESPONSE_RSA_KEY]; [upnp/misc.py] is
    not among the sources. *)
Variables CODE_RSA_KEY CODE_RESPONSE_RSA_KEY : Z.

(** The attributes of [UpnpBase] that the request code reads;
    [remote_keyobj] is [None] until [__init__] has set it. *)
Record UpnpBase : Type := mkUpnpBase {
  serial : bytes;
  remote_keyobj : option keyobj
}.

Definition _parse_response (self : UpnpBase) (buf : bytes) (resp_code : Z)
  : outcome (option json) :=
  match bsplit1 x00 (slice (Some 2) None buf) with
  | [payload; signature] =>
      match unpack_BB (slice None (Some 2) buf) with
      | None => Raise StructError
      | Some (code, status) =>
          if negb (code =? resp_code) then Ret None
          else if negb (status =? 0) then
            match utf8_decode payload with
            | Some msg => Raise (RuntimeError [msg])
            | None => Raise UnicodeError
            end
          else
            match utf8_decode payload with
            | None => Raise UnicodeError
            | Some text =>
                match json_loads text with
                | None => Raise ValueError
                | Some resp =>
                    if resp_code =? CODE_RESPONSE_RSA_KEY then
                      match load_keyobj resp with
                      | None => Raise CryptoError
                      | Some remote =>
                          if validate_signature remote payload signature
                          then Ret (Some resp) else Ret None
                      end
                    else
                      match remote_keyobj self with
                      | None => Raise AttributeError
                      | Some remote =>
                          if validate_signature remote payload signature
                          then Ret (Some resp) else Ret None
                      end
                end
            end
      end
  | _ => Raise ValueError
  end.

(** [if resp:] on what [_parse_response] returned. *)
Definition truthy (resp : option json) : bool :=
  match resp with Some v => json_truthy v | None => false end.

(** The [while select(...)[0]] loop of [make_request], on the coming
    events; [recvfrom(1024)] keeps the first 1024 bytes of a datagram. *)
Fixpoint await (self : UpnpBase) (resp_code : Z) (events : list event)
  : outcome (option json) * list event :=
  match events with
  | [] => (Ret None, [])
  | Silence :: rest => (Ret None, rest)
  | Datagram d :: rest =>
      match _parse_response self (firstn 1024 d) resp_code with
      | Ret resp => if truthy resp then (Ret resp, rest) else await self resp_code rest
      | Raise e => (Raise e, rest)
      | Diverge => (Diverge, rest)
      end
  end.

Definition sendto (payload : bytes) : M Net unit :=
  modify (fun n => mkNet (inbox n) (outbox n ++ [payload])).

Definition make_request (self : UpnpBase) (req_code resp_code : Z)
    (message : bytes) (encrypt : bool) : M Net (option json) :=
  message <- match message, encrypt with
             | _ :: _, true =>
                 match remote_keyobj self with
                 | Some k => ret (rsa_encrypt k message)
                 | None => raise AttributeError
                 end
             | _, _ => ret message
             end ;;
  header <- orraise StructError (pack_header (serial self) req_code) ;;
  sendto (header ++ message) ;;;
  fun n =>
    let (o, rest) := await self resp_code (inbox n) in
    (o, mkNet rest (outbox n)).

(** [fetch_publickey(retry)]; a [retry] below zero behaves as zero. *)
Fixpoint fetch_publickey_from (self : UpnpBase) (retry : nat) : M Net json :=
  resp <- make_request self CODE_RSA_KEY CODE_RESPONSE_RSA_KEY [] true ;;
  let again :=
    match retry with
    | S retry' => fetch_publickey_from self retry'
    | O => raise (RuntimeError [lit "TIMEOUT"; lit "fetch public key"])
    end in
  match resp with
  | Some key => if json_truthy key then ret key else again
  | None => again
  end.

Definition fetch_publickey (self : UpnpBase) (retry : Z) : M Net json :=
  fetch_publickey_from self (Z.to_nat retry).

(** The last three statements of [UpnpBase.__init__]: the caller's key, or
    the fetched one with the default [retry=20]; the result is
    [(self.pubkey, self.remote_keyobj)]. *)
Definition init_pubkey (self : UpnpBase) (pubkey : option json)
  : M Net (json * keyobj) :=
  pubkey <- match pubkey with
            | Some k => if json_truthy k then ret k else fetch_publickey self 20
            | None => fetch_publickey self 20
            end ;;
  remote <- orraise CryptoError (load_keyobj pubkey) ;;
  ret (pubkey, remote).

(** A reply that the wait loop passes over: it parses, to nothing or to a
    falsy value. *)
Definition passed_over (self : UpnpBase) (resp_code : Z) (ev : event) : Prop :=
  match ev with
  | Datagram d =>
      exists resp, _parse_response self (firstn 1024 d) resp_code = Ret resp
                   /\ truthy resp = false
  | Silence => False
  end.

(** One key-fetch exchange, as [fetch_publickey] issues it. *)
Definition key_request (self : UpnpBase) : M Net (option json) :=
  make_request self CODE_RSA_KEY CODE_RESPONSE_RSA_KEY [] true.

(** The socket after [n] key-fetch exchanges in a row that each ended
    without a response; [None] when one of them ended otherwise. *)
Fixpoint idle_attempts (self : UpnpBase) (n : nat) (net : Net) : option Net :=
  match n with
  | O => Some net
  | S n' =>
      match key_request self net with
      | (Ret resp, net') => if truthy resp then None else idle_attempts self n' net'
      | _ => None
      end
  end.

End WithCollaborators.

End Upnp.

(** ** Vocabulary of the statements *)

(** Everything in the world that a [recv] leaves alone. *)
Definition beside_rx (w : World)
  : list bytes * list bool * list bytes * list Z * list (Z * Z)
    * list (bool * str) * list logrec :=
  (tx (sock w), ready (sock w), source w, clock w, progress w, yielded w, log w).

(** The next [select] finds the connection readable. *)
Definition readable (w : World) : Prop := hd true (ready (sock w)) = true.

(** The frame [_send_cmd] writes for a payload, as one byte string. *)
Definition command_frame (payload : bytes) : option bytes :=
  option_map (fun prefix => prefix ++ payload) (pack_H (len payload + 2)).

(** The number of zero bytes in a byte string. *)
Definition zeros (p : bytes) : nat := count_occ Byte.byte_eq_dec p x00.

(** An action leaves an observation of the world as it was. *)
Definition preserves {X A} (f : World -> X) (m : M World A) : Prop :=
  forall w, f (snd (m w)) = f w.

(** An observation that does not look at the connection. *)
Definition sock_blind {X} (f : World -> X) : Prop :=
  forall g w, f (with_sock g w) = f w.

(** A progress callback that returns normally and leaves the upload source
    alone; [None] is passive too. *)
Definition passive (progress_callback : option callback) : Prop :=
  match progress_callback with
  | Some cb =>
      forall sent length w,
        exists w', cb sent length w = (Ret tt, w') /\ source w' = source w
  | None => True
  end.

(** The number of bytes in a list of read results. *)
Definition total (chunks : list bytes) : Z := len (List.concat chunks).

(** The reads and waits made on the connection so far. *)
Definition reads (w : World) : list bytes * list bool * list Z :=
  (rx (sock w), ready (sock w), asked (sock w)).

(** The frame the device writes for a response: the prefix counts the
    payload alone. *)
Definition response_frame (payload : bytes) : option bytes :=
  option_map (fun prefix => prefix ++ payload) (pack_H (len payload)).

(** The frames of several responses, one after the other. *)
Fixpoint response_frames (payloads : list bytes) : option bytes :=
  match payloads with
  | [] => Some []
  | R :: more =>
      match response_frame R, response_frames more with
      | Some f, Some fs => Some (f ++ fs)
      | _, _ => None
      end
  end.

(** Every coming [select] finds the connection readable. *)
Definition always_readable (w : World) : Prop :=
  forallb (fun r => r) (ready (sock w)) = true.

(** [n] calls of [get_resp] in a row, with their results in order. *)
Fixpoint get_resps (n : nat) : M World (list bytes) :=
  match n with
  | O => ret []
  | S n' =>
      r <- Robot.get_resp Robot.default_timeout ;;
      rs <- get_resps n' ;;
      ret (r :: rs)
  end.

(** The commands without arguments that answer ok or error ([scan_next]
    with its default resolution, which it does not use), each with the verb
    it puts on the wire. *)
Definition nullary_commands `{Codec} : list (M World str * bytes) :=
  [(Robot.start_play, blit "start");
   (Robot.begin_scan, blit "scan");
   (Robot.quit_task, blit "quit");
   (Robot.kick, blit "kick");
   (Robot.pause_play, blit "pause");
   (Robot.abort_play, blit "abort");
   (Robot.resume_play, blit "resume");
   (Robot.scan_next 200, blit "scan_next");
   (Robot.scan_backward, blit "scan_forword");
   (Robot.begin_maintain, blit "maintain");
   (Robot.maintain_home, blit "home");
   (Robot.maintain_reset_mb, blit "reset_mb")].

(** The commands on an entry and a path that answer ok or error, each with
    the verb it puts on the wire. *)
Definition path_commands `{Codec} : list ((str -> str -> M World str) * bytes) :=
  [(Robot.select_file, blit "select");
   (Robot.mkdir, blit "mkdir");
   (Robot.rmdir, blit "rmdir");
   (Robot.rmfile, blit "rm")].

(** How [ok_or_error] ends for a response text. *)
Definition ok_or_error_outcome (text : str) : outcome str :=
  if str_eqb text (lit "ok") then Ret text
  else Raise (RuntimeError (Robot.error_args text)).

(** An attachment as the device sends it: the header text in a frame, then
    the raw bytes. *)
Record attachment : Type := mkAttachment {
  at_header : bytes;
  at_mimetype : str;
  at_ssize : str;
  at_payload : bytes
}.

(** The header announces the media type and the exact size of the bytes. *)
Definition well_announced (a : attachment) : Prop :=
  split 32 (decode_ascii_ignore (at_header a))
  = [lit "binary"; at_mimetype a; at_ssize a]
  /\ int (at_ssize a) = Some (len (at_payload a)).

Fixpoint attachments_wire (l : list attachment) : option bytes :=
  match l with
  | [] => Some []
  | a :: more =>
      match response_frame (at_header a), attachments_wire more with
      | Some f, Some fs => Some (f ++ at_payload a ++ fs)
      | _, _ => None
      end
  end.

(** The commands that collect attachments, each with its verb. *)
Definition image_commands
  : list ((nat -> nat -> M World (list (str * bytes))) * bytes) :=
  [(Robot.oneshot, blit "oneshot"); (Robot.scanimages, blit "scanimages")].

(** A listing as the device writes it: each entry is its name behind the
    tag [D] (folder) or [F] (file), and the entries are joined by NUL. *)
Definition tag_entry (e : bool * str) : str :=
  (if fst e then 68%N else 70%N) :: snd e.

Definition encode_listing (entries : list (bool * str)) : str :=
  join 0 (map tag_entry entries).

(** An action that ends, by returning or by raising, in every world. *)
Definition settles {A} (m : M World A) : Prop :=
  forall w, fst (m w) <> Diverge.

(** A datagram, as [recvfrom(1024)] returns it, that answers some other
    request: it has its two leading bytes, a NUL somewhere after them, and
    a response code that is not [resp_code]. *)
Definition other_code (resp_code : Z) (d : bytes) : Prop :=
  exists c st body,
    firstn 1024 d = c :: st :: body /\ In x00 body /\ byte_to_Z c <> resp_code.

(** File metadata as the device writes it after ["ok "]: [key=value] items
    joined by NUL. *)
Definition encode_meta (pairs : list (str * str)) : str :=
  join 0 (map (fun kv => fst kv ++ 61%N :: snd kv) pairs).

(** * Properties *)

Import Robot.

(** ** Python primitives *)

Lemma split_nonempty (sep : N) (s : str) : split sep s <> [].
Proof.
  destruct s as [|c s]; simpl; [discriminate|].
  destruct (N.eqb c sep); [discriminate|].
  destruct (split sep s); discriminate.
Qed.

Lemma split_cons_other (sep c : N) (s : str) :
  N.eqb c sep = false ->
  split sep (c :: s) = (c :: hd [] (split sep s)) :: tl (split sep s).
Proof.
  intros Hc; simpl; rewrite Hc.
  destruct (split sep s) eqn:Hs; [|reflexivity].
  now destruct (split_nonempty sep s).
Qed.

(** Joining the fields of a split with the separator gives the text back. *)
Lemma join_split (sep : N) (s : str) : join sep (split sep s) = s.
Proof.
  induction s as [|c s IH]; [reflexivity|].
  simpl. destruct (N.eqb_spec c sep) as [->|Hne].
  - simpl. destruct (split sep s) eqn:Hs.
    + now destruct (split_nonempty sep s).
    + now rewrite <- IH.
  - destruct (split sep s) as [|t ts] eqn:Hs.
    + now destruct (split_nonempty sep s).
    + simpl in *. destruct ts; simpl in *; now rewrite <- IH.
Qed.

(** No field of a split contains the separator. *)
Lemma split_fields_free (sep : N) (s : str) :
  Forall (fun t => ~ In sep t) (split sep s).
Proof.
  induction s as [|c s IH]; simpl.
  - constructor; [intros []|constructor].
  - destruct (N.eqb_spec c sep) as [->|Hne].
    + constructor; [intros []|exact IH].
    + destruct (split sep s) as [|t ts].
      * constructor; [|constructor]. intros [H|[]]. now apply Hne.
      * inversion IH as [|? ? Ht Hts]; subst. constructor; [|exact Hts].
        intros [H|H]; [now apply Hne|now apply Ht].
Qed.

Lemma byte_to_of_Z (z : Z) : 0 <= z <= 255 -> byte_to_Z (byte_of_Z z) = z.
Proof.
  intros Hz. unfold byte_to_Z, byte_of_Z.
  destruct (Byte.of_N (Z.to_N z)) as [b|] eqn:Hb.
  - apply Byte.to_of_N in Hb. rewrite Hb. lia.
  - apply Byte.of_N_None_iff in Hb. lia.
Qed.

Lemma byte_to_Z_range (b : byte) : 0 <= byte_to_Z b <= 255.
Proof.
  unfold byte_to_Z. pose proof (Byte.to_N_bounded b). lia.
Qed.

(** The two bytes of ["<H"] are the value, low byte first. *)
Lemma pack_H_little_endian (l : Z) :
  0 <= l <= 65535 ->
  exists lo hi, pack_H l = Some [lo; hi]
    /\ byte_to_Z lo = l mod 256 /\ byte_to_Z hi = l / 256.
Proof.
  intros Hl. unfold pack_H.
  replace ((0 <=? l) && (l <=? 65535)) with true by (symmetry; apply andb_true_iff; lia).
  eexists _, _. split; [reflexivity|].
  split; apply byte_to_of_Z.
  - pose proof (Z.mod_pos_bound l 256). lia.
  - split; [apply Z.div_pos; lia|].
    assert (l / 256 < 256) by (apply Z.div_lt_upper_bound; lia). lia.
Qed.

Lemma unpack_pack_H (l : Z) (p : bytes) :
  pack_H l = Some p -> unpack_H p = Some l.
Proof.
  unfold pack_H. destruct ((0 <=? l) && (l <=? 65535)) eqn:Hr; [|discriminate].
  apply andb_true_iff in Hr. intros [= <-]. unfold unpack_H.
  assert (Hl : 0 <= l <= 65535) by lia.
  destruct (pack_H_little_endian l Hl) as (lo & hi & Hp & Hlo & Hhi).
  unfold pack_H in Hp.
  replace ((0 <=? l) && (l <=? 65535)) with true in Hp by (symmetry; apply andb_true_iff; lia).
  injection Hp as <- <-. rewrite Hlo, Hhi.
  f_equal. pose proof (Z.div_mod l 256 ltac:(lia)). lia.
Qed.

Lemma len_app {A} (a b : list A) : len (a ++ b) = len a + len b.
Proof. unfold len. rewrite length_app. lia. Qed.

Lemma len_nonneg {A} (a : list A) : 0 <= len a.
Proof. unfold len. lia. Qed.

(** ** The socket model *)

Lemma take_all_spec (n : nat) (segs : list bytes) :
  fst (take_all n segs) = firstn n (List.concat segs)
  /\ List.concat (snd (take_all n segs)) = skipn n (List.concat segs).
Proof.
  revert n. induction segs as [|seg rest IH]; intros n; simpl.
  - now rewrite firstn_nil, skipn_nil.
  - destruct (Nat.leb_spec (List.length seg) n) as [Hle|Hgt].
    + specialize (IH (n - List.length seg)%nat).
      destruct (take_all (n - List.length seg) rest) as [b r]; simpl in *.
      destruct IH as [IH1 IH2]. rewrite firstn_app, skipn_app.
      rewrite (firstn_all2 seg) by lia. rewrite (skipn_all2 seg) by lia.
      now rewrite IH1, IH2.
    + simpl. rewrite firstn_app, skipn_app.
      replace (n - List.length seg)%nat with 0%nat by lia. simpl.
      now rewrite app_nil_r.
Qed.

Lemma take_segment_spec (n : nat) (segs : list bytes) :
  exists k, (k <= n)%nat
    /\ fst (take_segment n segs) = firstn k (List.concat segs)
    /\ List.concat (snd (take_segment n segs)) = skipn k (List.concat segs)
    /\ (List.concat segs <> [] -> (0 < n)%nat -> (0 < k)%nat).
Proof.
  induction segs as [|seg rest IH]; simpl.
  - exists 0%nat. repeat split; try lia. now intros [].
  - destruct seg as [|c seg]; [exact IH|].
    exists (Nat.min n (List.length (c :: seg))).
    set (s := c :: seg). cbn [fst snd List.concat].
    assert (Hs : (0 < List.length s)%nat) by (simpl; lia).
    repeat split; try lia.
    + rewrite firstn_app.
      replace (Nat.min n (List.length s) - List.length s)%nat with 0%nat by lia.
      rewrite firstn_O, app_nil_r.
      destruct (Nat.le_ge_cases n (List.length s)).
      * now rewrite Nat.min_l.
      * rewrite Nat.min_r by lia. now rewrite !firstn_all2 by lia.
    + rewrite skipn_app.
      replace (Nat.min n (List.length s) - List.length s)%nat with 0%nat by lia.
      rewrite skipn_O. f_equal.
      destruct (Nat.le_ge_cases n (List.length s)).
      * now rewrite Nat.min_l.
      * rewrite Nat.min_r by lia. now rewrite !skipn_all2 by lia.
Qed.

Ltac run :=
  unfold orraise, modify, gets; cbv beta iota;
  unfold bind, ret, raise; cbn [fst snd].

Lemma recv_waitall_pending (n : Z) (w : World) :
  0 <= n ->
  exists w',
    sock_recv_waitall n w = (Ret (firstn (Z.to_nat n) (pending w)), w')
    /\ pending w' = skipn (Z.to_nat n) (pending w)
    /\ beside_rx w' = beside_rx w.
Proof.
  intros Hn. unfold sock_recv_waitall, recv_with.
  replace (n <? 0) with false by (symmetry; apply Z.ltb_ge; lia).
  destruct (take_all_spec (Z.to_nat n) (rx (sock w))) as [H1 H2].
  destruct (take_all (Z.to_nat n) (rx (sock w))) as [b r]; simpl in *.
  eexists; split; [now rewrite H1|]. split; [exact H2|reflexivity].
Qed.

Lemma recv_pending (n : Z) (w : World) :
  0 <= n ->
  exists (k : nat) w',
    sock_recv n w = (Ret (firstn k (pending w)), w')
    /\ (k <= Z.to_nat n)%nat
    /\ (pending w <> [] -> 0 < n -> (0 < k)%nat)
    /\ pending w' = skipn k (pending w)
    /\ asked (sock w') = asked (sock w) ++ [n]
    /\ beside_rx w' = beside_rx w.
Proof.
  intros Hn. unfold sock_recv, recv_with.
  replace (n <? 0) with false by (symmetry; apply Z.ltb_ge; lia).
  destruct (take_segment_spec (Z.to_nat n) (rx (sock w))) as (k & Hk & H1 & H2 & H3).
  destruct (take_segment (Z.to_nat n) (rx (sock w))) as [b r]; simpl in *.
  exists k. eexists. split; [now rewrite H1|].
  repeat split; auto. intros Hp Hpos. apply H3; [exact Hp|lia].
Qed.

(** The reads of [get_resp], after the readiness wait. *)
Lemma read_frame_pending (w : World) (lo hi : byte) (body : bytes) :
  pending w = lo :: hi :: body ->
  exists w',
    (bml <- sock_recv_waitall 2 ;;
     match bml with
     | [] => raise (SocketError EPIPE (lit "Broken pipe"))
     | _ =>
         message_length <- orraise StructError (unpack_H bml) ;;
         sock_recv_waitall message_length
     end) w
      = (Ret (firstn (Z.to_nat (byte_to_Z lo + 256 * byte_to_Z hi)) body), w')
    /\ pending w' = skipn (Z.to_nat (byte_to_Z lo + 256 * byte_to_Z hi)) body
    /\ beside_rx w' = beside_rx w.
Proof.
  intros Hp. run.
  destruct (recv_waitall_pending 2 w ltac:(lia)) as (w2 & H2 & Hp2 & Hb2).
  rewrite H2, Hp. cbn [Z.to_nat Pos.to_nat Pos.iter_op Nat.add firstn unpack_H].
  rewrite Hp in Hp2. cbn [Z.to_nat Pos.to_nat Pos.iter_op Nat.add skipn] in Hp2.
  pose proof (byte_to_Z_range lo). pose proof (byte_to_Z_range hi).
  destruct (recv_waitall_pending (byte_to_Z lo + 256 * byte_to_Z hi) w2 ltac:(lia))
    as (w3 & H3 & Hp3 & Hb3).
  rewrite Hp2 in H3, Hp3. exists w3. split; [exact H3|]. split; [exact Hp3|].
  congruence.
Qed.

(** [get_resp] on a readable connection: the two-byte prefix is read as a
    little-endian number [L], and the next [L] bytes are the result. *)
Lemma get_resp_pending (timeout : Z) (w : World) (lo hi : byte) (body : bytes) :
  readable w ->
  pending w = lo :: hi :: body ->
  exists w',
    get_resp timeout w
      = (Ret (firstn (Z.to_nat (byte_to_Z lo + 256 * byte_to_Z hi)) body), w')
    /\ pending w' = skipn (Z.to_nat (byte_to_Z lo + 256 * byte_to_Z hi)) body
    /\ tx (sock w') = tx (sock w)
    /\ ready (sock w') = tl (ready (sock w))
    /\ (source w', clock w', progress w', yielded w', log w')
       = (source w, clock w, progress w, yielded w, log w).
Proof.
  intros Hr Hp. unfold readable in Hr.
  unfold get_resp, select_readable. unfold bind at 1.
  destruct (ready (sock w)) as [|r rs] eqn:Hrd.
  - cbn [negb].
    destruct (read_frame_pending w lo hi body Hp) as (w' & Hg & Hp' & Hb).
    exists w'. split; [exact Hg|]. split; [exact Hp'|].
    unfold beside_rx in Hb. injection Hb as ? ? ? ? ? ? ?.
    rewrite Hrd in *. cbn [tl]. repeat split; congruence.
  - simpl in Hr. subst r. cbn [negb].
    set (w1 := with_sock (fun s => mkSocket (rx s) (tx s) rs (asked s)) w).
    destruct (read_frame_pending w1 lo hi body Hp) as (w' & Hg & Hp' & Hb).
    exists w'. split; [exact Hg|]. split; [exact Hp'|].
    unfold beside_rx in Hb. injection Hb as ? ? ? ? ? ? ?.
    subst w1; simpl in *. repeat split; congruence.
Qed.

(** ** Error strings *)

(** C7: for a response beginning with "error ", the raised failure carries
    as its code the first space-separated token after the prefix and as its
    arguments the remaining tokens, in order: code and arguments are exactly
    the fields of the text after the prefix, which joined by single spaces
    give that text back and none of which contains a space. *)
Theorem raise_error_code_and_args (rest : str) (w : World) :
  exists code args e,
    raise_error (A := unit) (lit "error " ++ rest) w = (Raise e, w)
    /\ error_code e = Some code
    /\ error_rest e = args
    /\ split 32 rest = code :: args
    /\ join 32 (code :: args) = rest
    /\ Forall (fun t => ~ In 32%N t) (code :: args).
Proof.
  destruct (split 32 rest) as [|code args] eqn:Hs;
    [now destruct (split_nonempty 32 rest)|].
  exists code, args, (RuntimeError (code :: args)).
  split.
  - unfold raise_error, error_args, raise.
    change (lit "error " ++ rest)
      with (101 :: 114 :: 114 :: 111 :: 114 :: 32 :: rest)%N.
    change (lit "error ") with [101; 114; 114; 111; 114; 32]%N.
    cbn [startswith N.eqb Pos.eqb andb].
    rewrite !split_cons_other by reflexivity.
    cbn [split N.eqb Pos.eqb tl]. now rewrite Hs.
  - repeat split.
    + rewrite <- Hs. apply join_split.
    + rewrite <- Hs. apply split_fields_free.
Qed.

(** ** Framing *)

(** What [_send_cmd] writes: one buffer, the prefix followed by the
    payload. *)
Lemma send_cmd_writes (P : bytes) (w : World) :
  len P + 2 <= 65535 ->
  exists frame,
    command_frame P = Some frame
    /\ _send_cmd P w
       = (Ret tt,
          with_sock (fun s => mkSocket (rx s) (tx s ++ [frame]) (ready s) (asked s)) w).
Proof.
  intros HP. pose proof (len_nonneg P).
  destruct (pack_H_little_endian (len P + 2) ltac:(lia)) as (lo & hi & Hpk & _).
  exists ([lo; hi] ++ P). unfold command_frame, _send_cmd. rewrite Hpk. now run.
Qed.

Lemma pack_H_two (l : Z) (pre : bytes) :
  pack_H l = Some pre ->
  exists lo hi, pre = [lo; hi] /\ byte_to_Z lo + 256 * byte_to_Z hi = l.
Proof.
  intros Hpk. pose proof (unpack_pack_H l pre Hpk) as Hu.
  unfold pack_H in Hpk. destruct ((0 <=? l) && (l <=? 65535)); [|discriminate].
  injection Hpk as <-. eexists _, _. split; [reflexivity|].
  unfold unpack_H in Hu. now injection Hu.
Qed.

Lemma firstn_len_app {A} (a b : list A) : firstn (Z.to_nat (len a)) (a ++ b) = a.
Proof.
  unfold len. rewrite Nat2Z.id, firstn_app, Nat.sub_diag, firstn_O, app_nil_r.
  apply firstn_all.
Qed.

Lemma skipn_len_app {A} (a b : list A) : skipn (Z.to_nat (len a)) (a ++ b) = b.
Proof.
  unfold len. rewrite Nat2Z.id, skipn_app, Nat.sub_diag, skipn_O.
  now rewrite skipn_all.
Qed.

(** [get_resp] returns the payload of a frame whose prefix is the length of
    the payload alone, and leaves what follows the frame. *)
Lemma get_resp_frame (timeout : Z) (w : World) (pre R rest : bytes) :
  pack_H (len R) = Some pre ->
  readable w ->
  pending w = pre ++ R ++ rest ->
  exists w',
    get_resp timeout w = (Ret R, w')
    /\ pending w' = rest
    /\ tx (sock w') = tx (sock w)
    /\ ready (sock w') = tl (ready (sock w))
    /\ (source w', clock w', progress w', yielded w', log w')
       = (source w, clock w, progress w, yielded w, log w).
Proof.
  intros Hpk Hr Hp.
  destruct (pack_H_two _ _ Hpk) as (lo & hi & -> & HL).
  destruct (get_resp_pending timeout w lo hi (R ++ rest) Hr Hp)
    as (w' & Hg & Hp' & Hrest).
  rewrite HL in Hg, Hp'. rewrite firstn_len_app in Hg. rewrite skipn_len_app in Hp'.
  now exists w'.
Qed.




(** ** Handshake *)

Ltac world :=
  unfold ret, raise;
  cbn [with_sock with_log with_source with_clock with_progress with_yielded
       sock rx tx ready asked log source clock progress yielded fst snd].

Ltac same_but_log :=
  repeat split; eexists; rewrite <- !app_assoc; split; reflexivity.

Section Handshake.
Context `{E : Encryptor}.


End Handshake.


(** ** Binary attachments *)

Lemma firstn_plus {A} (k m : nat) (l : list A) :
  firstn (k + m) l = firstn k l ++ firstn m (skipn k l).
Proof.
  revert l. induction k as [|k IH]; intros l; [reflexivity|].
  destruct l as [|x l]; simpl; [now rewrite firstn_nil|]. now rewrite IH.
Qed.

Lemma len_firstn_le {A} (k : nat) (l : list A) :
  (k <= List.length l)%nat -> len (firstn k l) = Z.of_nat k.
Proof. intros Hk. unfold len. rewrite length_firstn. lia. Qed.

Lemma len_skipn {A} (k : nat) (l : list A) :
  (k <= List.length l)%nat -> len (skipn k l) = len l - Z.of_nat k.
Proof. intros Hk. unfold len. rewrite length_skipn. lia. Qed.

(** When the stream holds at least [left] more bytes, the loop of
    [recv_binary] returns them appended to the buffer, whatever the
    segmentation, asking for at most 4096 bytes at a time. *)
Lemma recv_binary_loop_complete (fuel : nat) :
  forall (left : Z) (buf : bytes) (w : World),
    left <= len (pending w) ->
    (Z.to_nat left <= fuel)%nat ->
    exists w' reqs,
      recv_binary_loop fuel left buf w
        = (Ret (buf ++ firstn (Z.to_nat left) (pending w)), w')
      /\ pending w' = skipn (Z.to_nat left) (pending w)
      /\ asked (sock w') = asked (sock w) ++ reqs
      /\ Forall (fun n => 0 < n <= 4096) reqs
      /\ beside_rx w' = beside_rx w.
Proof.
  induction fuel as [|fuel IH]; intros left buf w Hlen Hfuel.
  - exists w, []. assert (left <= 0) by lia. cbn [recv_binary_loop].
    replace (0 <? left) with false by (symmetry; apply Z.ltb_ge; lia).
    replace (Z.to_nat left) with 0%nat by lia.
    rewrite firstn_O, skipn_O, !app_nil_r. repeat split. constructor.
  - cbn [recv_binary_loop]. destruct (Z.ltb_spec 0 left) as [Hpos|Hnpos].
    2:{ exists w, []. replace (Z.to_nat left) with 0%nat by lia.
        rewrite firstn_O, skipn_O, !app_nil_r. repeat split. constructor. }
    destruct (recv_pending (Z.min 4096 left) w ltac:(lia))
      as (k & w1 & Hrecv & Hk & Hkpos & Hp1 & Hasked & Hb1).
    assert (Hne : pending w <> [])
      by (intros Heq; rewrite Heq in Hlen; unfold len in Hlen; simpl in Hlen; lia).
    specialize (Hkpos Hne ltac:(lia)).
    assert (Hkl : (k <= List.length (pending w))%nat) by (unfold len in Hlen; lia).
    run. rewrite Hrecv. rewrite (len_firstn_le k _ Hkl).
    destruct (IH (left - Z.of_nat k) (buf ++ firstn k (pending w)) w1)
      as (w2 & reqs & Hloop & Hp2 & Hasked2 & Hreqs & Hb2).
    + rewrite Hp1, len_skipn by exact Hkl. lia.
    + lia.
    + exists w2, (Z.min 4096 left :: reqs). rewrite Hloop.
      replace (Z.to_nat left) with (k + Z.to_nat (left - Z.of_nat k))%nat by lia.
      rewrite firstn_plus, <- app_assoc, <- Hp1. split; [reflexivity|].
      split; [now rewrite Hp2, Hp1, skipn_skipn, Nat.add_comm|].
      split; [now rewrite Hasked2, Hasked, <- app_assoc|].
      split; [constructor; [lia|exact Hreqs]|congruence].
Qed.

(** When the stream ends before [left] more bytes have come, every further
    [recv] returns nothing once the stream is drained and [left] stays
    positive: the loop neither returns nor raises. *)
Lemma recv_binary_loop_short (fuel : nat) :
  forall (left : Z) (buf : bytes) (w : World),
    len (pending w) < left ->
    fst (recv_binary_loop fuel left buf w) = Diverge.
Proof.
  induction fuel as [|fuel IH]; intros left buf w Hshort;
    pose proof (len_nonneg (pending w)); cbn [recv_binary_loop];
    replace (0 <? left) with true by (symmetry; apply Z.ltb_lt; lia);
    [reflexivity|].
  destruct (recv_pending (Z.min 4096 left) w ltac:(lia))
    as (k & w1 & Hrecv & Hk & _ & Hp1 & _).
  run. rewrite Hrecv. apply IH. rewrite Hp1.
  destruct (Nat.le_ge_cases k (List.length (pending w))) as [Hkl|Hkl].
  - rewrite len_firstn_le, len_skipn by exact Hkl. lia.
  - rewrite firstn_all2, skipn_all2 by exact Hkl. unfold len at 1. simpl. lia.
Qed.


(** A well-formed header and a stream that closes before the announced
    bytes have come: the call neither returns nor raises. *)
Lemma recv_binary_short (fuel : nat) (header mimetype ssize : str)
    (size : Z) (w : World) :
  split 32 header = [lit "binary"; mimetype; ssize] ->
  int ssize = Some size ->
  len (pending w) < size ->
  fst (recv_binary fuel header w) = Diverge.
Proof.
  intros Hsplit Hint Hshort. unfold recv_binary. rewrite Hsplit.
  cbv beta iota.
  change (str_eqb (lit "binary") (lit "binary")) with true. cbn [negb].
  rewrite Hint. unfold logf. run. cbv beta.
  match goal with |- context [recv_binary_loop _ _ _ ?x] => set (w0 := x) end.
  pose proof (recv_binary_loop_short fuel size [] w0 Hshort) as Hd.
  destruct (recv_binary_loop fuel size [] w0) as [o w']. simpl in Hd. now subst o.
Qed.

(** C3: the code does not do what the claim says for a truncated stream.
    After the header ["binary image/png 5"], when the stream closes after 3
    bytes, the call does not raise a transport error: however many
    iterations are followed it is still in its loop, asking for the 2
    missing bytes. *)
Theorem recv_binary_truncated_never_returns (fuel : nat) :
  fst (recv_binary fuel (lit "binary image/png 5") (incoming [blit "abc"]))
  = Diverge.
Proof.
  apply (recv_binary_short fuel _ (lit "image/png") (lit "5") 5).
  - reflexivity.
  - reflexivity.
  - vm_compute. reflexivity.
Qed.

(** ** Leaving raw mode *)

Lemma byte_to_Z_zero (c : byte) : byte_to_Z c = 0 <-> c = x00.
Proof.
  split; [|now intros ->].
  unfold byte_to_Z. intros Hz. pose proof (Byte.of_to_N c) as Hc.
  replace (Byte.to_N c) with 0%N in Hc by lia. simpl in Hc. congruence.
Qed.

Lemma recv_one (c : byte) (rest : bytes) (w : World) :
  pending w = c :: rest ->
  exists w',
    sock_recv 1 w = (Ret [c], w')
    /\ pending w' = rest
    /\ beside_rx w' = beside_rx w.
Proof.
  intros Hp.
  destruct (recv_pending 1 w ltac:(lia)) as (k & w' & Hrecv & Hk & Hpos & Hp' & _ & Hb).
  assert (k = 1%nat) as -> by (specialize (Hpos ltac:(rewrite Hp; discriminate) ltac:(lia));
                               simpl in Hk; lia).
  rewrite Hp in Hrecv, Hp'. now exists w'.
Qed.

(** One turn of the loop while [sync] is at most 8: the byte is consumed,
    and counted if it is zero. *)
Lemma resync_step_low (sync : Z) (c : byte) (rest : bytes) (w : World) :
  sync <= 8 ->
  pending w = c :: rest ->
  exists w',
    pending w' = rest /\ beside_rx w' = beside_rx w
    /\ forall f, resync (S f) sync w
                 = resync f (if Byte.eqb c x00 then sync + 1 else sync) w'.
Proof.
  intros Hs Hp. destruct (recv_one c rest w Hp) as (w' & Hrecv & Hp' & Hb).
  exists w'. split; [exact Hp'|]. split; [exact Hb|]. intros f.
  cbn [resync]. run. rewrite Hrecv. cbn [ord].
  replace (sync >? 8) with false by (rewrite Z.gtb_ltb; symmetry; apply Z.ltb_ge; lia).
  destruct (Byte.eqb c x00) eqn:Hc.
  - apply Byte.byte_dec_bl in Hc. subst c. reflexivity.
  - apply Byte.eqb_false in Hc.
    replace (byte_to_Z c =? 0) with false; [reflexivity|].
    symmetry. apply Z.eqb_neq. now rewrite byte_to_Z_zero.
Qed.

(** While no more than 8 zero bytes have been seen, bytes are skipped,
    zero or not. *)
Lemma resync_skip (p rest : bytes) :
  forall (sync : Z) (w : World),
    sync + Z.of_nat (zeros p) <= 8 ->
    pending w = p ++ rest ->
    exists w',
      pending w' = rest /\ beside_rx w' = beside_rx w
      /\ forall f, resync (List.length p + f) sync w
                   = resync f (sync + Z.of_nat (zeros p)) w'.
Proof.
  induction p as [|c p IH]; intros sync w Hz Hp.
  - exists w. repeat split; [exact Hp|]. intros f. simpl. f_equal. lia.
  - unfold zeros in *. simpl in Hz, Hp.
    destruct (resync_step_low sync c (p ++ rest) w) as (w1 & Hp1 & Hb1 & Hstep);
      [destruct (Byte.byte_eq_dec c x00); lia|exact Hp|].
    destruct (IH (if Byte.eqb c x00 then sync + 1 else sync) w1) as (w2 & Hp2 & Hb2 & Hrun);
      [|exact Hp1|].
    + destruct (Byte.byte_eq_dec c x00) as [->|Hne].
      * simpl. lia.
      * destruct (Byte.eqb c x00) eqn:Hc; [apply Byte.byte_dec_bl in Hc; contradiction|lia].
    + exists w2. split; [exact Hp2|]. split; [congruence|]. intros f.
      cbn [List.length Nat.add]. rewrite Hstep, Hrun. f_equal.
      simpl. destruct (Byte.byte_eq_dec c x00) as [->|Hne].
      * simpl. lia.
      * destruct (Byte.eqb c x00) eqn:Hc; [apply Byte.byte_dec_bl in Hc; contradiction|lia].
Qed.

(** Once more than 8 zero bytes have been seen, further zero bytes are
    skipped and the first nonzero byte, consumed too, ends the loop. *)
Lemma resync_tail (j : nat) (b : byte) (rest : bytes) :
  forall (sync : Z) (w : World),
    8 < sync ->
    b <> x00 ->
    pending w = repeat x00 j ++ b :: rest ->
    exists w',
      pending w' = rest /\ beside_rx w' = beside_rx w
      /\ forall f, resync (j + S f) sync w = (Ret tt, w').
Proof.
  induction j as [|j IH]; intros sync w Hs Hb Hp; simpl in Hp.
  - destruct (recv_one b rest w Hp) as (w' & Hrecv & Hp' & Hbs).
    exists w'. split; [exact Hp'|]. split; [exact Hbs|]. intros f.
    cbn [Nat.add resync]. run. rewrite Hrecv. cbn [ord].
    replace (sync >? 8) with true by (rewrite Z.gtb_ltb; symmetry; apply Z.ltb_lt; lia).
    assert (byte_to_Z b <> 0) by now rewrite byte_to_Z_zero.
    pose proof (byte_to_Z_range b).
    replace (byte_to_Z b >? 0) with true by (rewrite Z.gtb_ltb; symmetry; apply Z.ltb_lt; lia).
    reflexivity.
  - destruct (recv_one x00 (repeat x00 j ++ b :: rest) w Hp) as (w1 & Hrecv & Hp1 & Hb1).
    destruct (IH sync w1 Hs Hb Hp1) as (w2 & Hp2 & Hb2 & Hrun).
    exists w2. split; [exact Hp2|]. split; [congruence|]. intros f.
    cbn [Nat.add resync]. run. rewrite Hrecv. cbn [ord].
    replace (sync >? 8) with true by (rewrite Z.gtb_ltb; symmetry; apply Z.ltb_lt; lia).
    change (byte_to_Z x00 >? 0) with false. cbv iota. apply Hrun.
Qed.

(** The loop ends at the first nonzero byte that follows the ninth zero
    byte. *)
Lemma resync_ninth_zero (p rest : bytes) (j fuel : nat) (b : byte) (w : World) :
  zeros p = 8%nat ->
  (1 <= j)%nat ->
  b <> x00 ->
  pending w = p ++ repeat x00 j ++ b :: rest ->
  (List.length p + j < fuel)%nat ->
  exists w',
    resync fuel 0 w = (Ret tt, w')
    /\ pending w' = rest /\ beside_rx w' = beside_rx w.
Proof.
  intros Hz Hj Hb Hp Hfuel.
  destruct j as [|j]; [lia|]. simpl in Hp.
  destruct (resync_skip p _ 0 w ltac:(lia) Hp) as (w1 & Hp1 & Hb1 & Hrun1).
  destruct (resync_step_low (0 + Z.of_nat (zeros p)) x00 _ w1 ltac:(lia) Hp1)
    as (w2 & Hp2 & Hb2 & Hrun2).
  destruct (resync_tail j b rest (0 + Z.of_nat (zeros p) + 1) w2 ltac:(lia) Hb Hp2)
    as (w3 & Hp3 & Hb3 & Hrun3).
  exists w3. split; [|split; [exact Hp3|congruence]].
  replace fuel with (List.length p + S (j + S (fuel - List.length p - j - 2)))%nat by lia.
  rewrite Hrun1, Hrun2. cbn [Byte.eqb]. apply Hrun3.
Qed.

Section RawMode.
Context `{C : Codec}.

(** C4, as the code has it: the loop counts zero bytes, consecutive or not,
    up to nine.  Once more than 8 of them have been read (so after 9
    consecutive ones in particular), the first nonzero byte that follows
    completes resynchronization and is consumed with everything before it;
    then exactly one ordinary framed response is read from what follows and
    interpreted as ok/error.  ["quit"] has been sent unframed before. *)
Theorem quit_raw_mode_resync (p rest : bytes) (j fuel : nat) (b : byte) (w : World) :
  zeros p = 8%nat ->
  (1 <= j)%nat ->
  b <> x00 ->
  pending w = p ++ repeat x00 j ++ b :: rest ->
  (List.length p + j < fuel)%nat ->
  exists w',
    pending w' = rest
    /\ tx (sock w') = tx (sock w) ++ [blit "quit"]
    /\ ready (sock w') = ready (sock w)
    /\ quit_raw_mode fuel w = ok_or_error (get_resp default_timeout) w'.
Proof.
  intros Hz Hj Hb Hp Hfuel.
  set (w0 := with_sock (fun s => mkSocket (rx s) (tx s ++ [blit "quit"]) (ready s) (asked s)) w).
  destruct (resync_ninth_zero p rest j fuel b w0 Hz Hj Hb Hp Hfuel)
    as (w' & Hrun & Hp' & Hbs).
  exists w'. unfold beside_rx in Hbs. injection Hbs as Ht Hr _ _ _ _ _.
  split; [exact Hp'|]. split; [exact Ht|]. split; [exact Hr|].
  unfold quit_raw_mode, ok_or_error, sock_send. run. fold w0. now rewrite Hrun.
Qed.

End RawMode.

Lemma quit_raw_mode_resync_witness :
  let w := incoming [repeat x00 9; [x01; x02; x00] ++ blit "ok"] in
  exists w',
    pending w' = [x02; x00] ++ blit "ok"
    /\ tx (sock w') = tx (sock w) ++ [blit "quit"]
    /\ ready (sock w') = ready (sock w)
    /\ @quit_raw_mode ascii_codec 20 w
       = @ok_or_error ascii_codec (get_resp default_timeout) w'.
Proof.
  apply (@quit_raw_mode_resync ascii_codec (repeat x00 8) ([x02; x00] ++ blit "ok")
           1%nat 20%nat x01).
  - reflexivity.
  - lia.
  - discriminate.
  - reflexivity.
  - simpl. lia.
Defined.

(** C4, as stated, fails: after exactly 8 zero bytes the nonzero byte [01]
    does not complete resynchronization.  The response frame ["ok"] that
    follows it is eaten by the loop (its prefix supplies the ninth zero) and
    the call fails, although that frame read on its own is a plain "ok". *)
Lemma quit_raw_mode_eight_zeros_not_enough :
  let frame := [x02; x00] ++ blit "ok" in
  fst (@quit_raw_mode ascii_codec 100 (incoming [repeat x00 8 ++ [x01] ++ frame]))
  = Raise StructError
  /\ fst (@ok_or_error ascii_codec (get_resp default_timeout) (incoming [frame]))
     = Ret (lit "ok")
  /\ fst (@quit_raw_mode ascii_codec 100 (incoming [repeat x00 9 ++ [x01] ++ frame]))
     = Ret (lit "ok").
Proof. cbv zeta. repeat split; vm_compute; reflexivity. Qed.

(** ** Listing files *)

Lemma str_eqb_eq (a b : str) : str_eqb a b = true <-> a = b.
Proof.
  revert b. induction a as [|x a IH]; intros [|y b]; simpl; try easy.
  rewrite andb_true_iff, N.eqb_eq, IH. split; [intros [-> ->]|intros [= -> ->]]; auto.
Qed.

Lemma str_eqb_neq (a b : str) : a <> b -> str_eqb a b = false.
Proof.
  intros Hne. destruct (str_eqb a b) eqn:Heq; [|reflexivity].
  now apply str_eqb_eq in Heq.
Qed.

Create HintDb preserves.

Lemma preserves_ret {X A} (f : World -> X) (a : A) : preserves f (ret a).
Proof. now intros w. Qed.

Lemma preserves_raise {X A} (f : World -> X) (e : exn) :
  preserves f (raise (A := A) e).
Proof. now intros w. Qed.

Lemma preserves_bind {X A B} (f : World -> X) (m : M World A) (k : A -> M World B) :
  preserves f m -> (forall a, preserves f (k a)) -> preserves f (bind m k).
Proof.
  intros Hm Hk w. unfold bind. specialize (Hm w).
  destruct (m w) as [[a|e|] w1]; simpl in *; [|exact Hm|exact Hm].
  now rewrite Hk.
Qed.

Lemma preserves_orraise {X A} (f : World -> X) (e : exn) (o : option A) :
  preserves f (orraise e o).
Proof. destruct o; now intros w. Qed.

Lemma preserves_recv_with {X} (f : World -> X) take (n : Z) :
  sock_blind f -> preserves f (recv_with take n).
Proof.
  intros Hf w. unfold recv_with. destruct (n <? 0); [reflexivity|].
  destruct (take (Z.to_nat n) (rx (sock w))). apply Hf.
Qed.

Lemma preserves_select {X} (f : World -> X) (timeout : Z) :
  sock_blind f -> preserves f (select_readable timeout).
Proof.
  intros Hf w. unfold select_readable. destruct (ready (sock w)); [reflexivity|apply Hf].
Qed.

Lemma preserves_send {X} (f : World -> X) (buf : bytes) :
  sock_blind f -> preserves f (sock_send buf).
Proof. intros Hf w. apply Hf. Qed.

#[local] Hint Resolve preserves_ret preserves_raise preserves_orraise
  preserves_recv_with preserves_select preserves_send : preserves.

Lemma preserves_get_resp {X} (f : World -> X) (timeout : Z) :
  sock_blind f -> preserves f (get_resp timeout).
Proof.
  intros Hf. unfold get_resp, sock_recv_waitall.
  apply preserves_bind; [auto with preserves|]. intros [|]; cbn [negb];
    [|auto with preserves].
  apply preserves_bind; [auto with preserves|]. intros [|c bml];
    [auto with preserves|].
  apply preserves_bind; auto with preserves.
Qed.

Lemma preserves_send_cmd {X} (f : World -> X) (buf : bytes) :
  sock_blind f -> preserves f (_send_cmd buf).
Proof.
  intros Hf. unfold _send_cmd. apply preserves_bind; auto with preserves.
Qed.

Lemma yielded_sock_blind : sock_blind yielded.
Proof. now intros g w. Qed.

Section Listing.
Context `{C : Codec}.

(** C5: in a [list_files] exchange where the device answers "continue" and
    sends an entry-list frame, a trailing frame whose text is not "ok" makes
    the operation raise the structured failure with code PROTOCOL_ERROR and
    argument NOT_OK, whatever the entry list holds, and no entry is handed
    out. *)
Theorem list_files_trailing_not_ok
    (entry path : str) (bentry bpath bresp bfiles blast : bytes)
    (w w0 w1 w2 w3 : World) :
  utf8_encode entry = Some bentry ->
  utf8_encode path = Some bpath ->
  _send_cmd (blit "ls " ++ bentry ++ blit " " ++ bpath) w = (Ret tt, w0) ->
  get_resp default_timeout w0 = (Ret bresp, w1) ->
  decode_ascii_ignore bresp = lit "continue" ->
  get_resp default_timeout w1 = (Ret bfiles, w2) ->
  get_resp default_timeout w2 = (Ret blast, w3) ->
  decode_ascii_ignore blast <> lit "ok" ->
  exists e,
    list_files entry path w = (Raise e, w3)
    /\ error_code e = Some (lit "PROTOCOL_ERROR")
    /\ error_rest e = [lit "NOT_OK"]
    /\ yielded w3 = yielded w.
Proof.
  intros Hentry Hpath Hsend Hresp Hcont Hfiles Hlast Hnok.
  exists (RuntimeError [lit "PROTOCOL_ERROR"; lit "NOT_OK"]).
  split; [|split; [reflexivity|split; [reflexivity|]]].
  - unfold list_files. rewrite Hentry, Hpath. run. cbv zeta.
    rewrite Hsend, Hresp, Hcont.
    change (str_eqb (lit "continue") (lit "continue")) with true. cbv beta iota.
    rewrite Hfiles, Hlast. rewrite (str_eqb_neq _ _ Hnok). cbn [negb].
    reflexivity.
  - pose proof (preserves_send_cmd yielded (blit "ls " ++ bentry ++ blit " " ++ bpath)
                  yielded_sock_blind w) as H0.
    pose proof (preserves_get_resp yielded default_timeout yielded_sock_blind w0) as H1.
    pose proof (preserves_get_resp yielded default_timeout yielded_sock_blind w1) as H2.
    pose proof (preserves_get_resp yielded default_timeout yielded_sock_blind w2) as H3.
    rewrite Hsend in H0. rewrite Hresp in H1. rewrite Hfiles in H2. rewrite Hlast in H3.
    simpl in *. congruence.
Qed.

End Listing.

Lemma list_files_trailing_not_ok_witness :
  let w := incoming [[x08; x00] ++ blit "continue";
                     [x10; x00] ++ blit "Fa.gcode" ++ [x00] ++ blit "Dmodels";
                     [x0f; x00] ++ blit "error NOT_EXIST"] in
  let w0 := snd (_send_cmd (blit "ls SD ") w) in
  let w1 := snd (get_resp default_timeout w0) in
  let w2 := snd (get_resp default_timeout w1) in
  let w3 := snd (get_resp default_timeout w2) in
  exists e,
    @list_files ascii_codec (lit "SD") [] w = (Raise e, w3)
    /\ error_code e = Some (lit "PROTOCOL_ERROR")
    /\ error_rest e = [lit "NOT_OK"]
    /\ yielded w3 = yielded w.
Proof.
  intros w w0 w1 w2 w3.
  apply (@list_files_trailing_not_ok ascii_codec (lit "SD") [] (blit "SD") []
           (blit "continue") (blit "Fa.gcode" ++ [x00] ++ blit "Dmodels")
           (blit "error NOT_EXIST") w w0 w1 w2 w3).
  - reflexivity.
  - reflexivity.
  - reflexivity.
  - reflexivity.
  - reflexivity.
  - reflexivity.
  - reflexivity.
  - vm_compute. discriminate.
Defined.

(** ** Upload *)

Lemma total_cons (c : bytes) (chunks : list bytes) :
  total (c :: chunks) = len c + total chunks.
Proof. unfold total. simpl. apply len_app. Qed.

Lemma total_nonneg (chunks : list bytes) : 0 <= total chunks.
Proof. apply len_nonneg. Qed.

Lemma len_pos {A} (l : list A) : l <> [] -> 0 < len l.
Proof. destruct l; [easy|]. intros _. unfold len. simpl. lia. Qed.

(** A read that finds a nonempty result in front returns between 1 and 4096
    bytes of it and keeps the remainder in front. *)
Lemma stream_read_chunk (c : bytes) (pre tail : list bytes) (w : World) :
  c <> [] ->
  source w = (c :: pre) ++ tail ->
  exists buf w1 pre1,
    stream_read 4096 w = (Ret buf, w1)
    /\ 0 < len buf <= 4096
    /\ source w1 = pre1 ++ tail
    /\ total pre1 = total (c :: pre) - len buf
    /\ (Forall (fun x => x <> []) pre -> Forall (fun x => x <> []) pre1)
    /\ sock w1 = sock w.
Proof.
  intros Hc Hsrc. pose proof (len_pos c Hc) as Hpos.
  unfold stream_read. rewrite Hsrc. cbn [app].
  destruct (Z.leb_spec (len c) 4096) as [Hle|Hgt].
  - exists c, (with_source (pre ++ tail) w), pre.
    rewrite total_cons. repeat split; auto; lia.
  - assert (Hl : (Z.to_nat 4096 <= List.length c)%nat) by (unfold len in Hgt; lia).
    exists (firstn (Z.to_nat 4096) c),
           (with_source (skipn (Z.to_nat 4096) c :: pre ++ tail) w),
           (skipn (Z.to_nat 4096) c :: pre).
    rewrite (len_firstn_le _ _ Hl), !total_cons, (len_skipn _ _ Hl).
    repeat split; auto; try lia.
    intros Hpre. constructor; [|exact Hpre].
    intros Heq. apply (f_equal (@List.length byte)) in Heq.
    rewrite length_skipn in Heq. unfold len in Hgt. simpl in Heq. lia.
Qed.

Lemma time_keeps_source (w : World) :
  exists t w', time w = (Ret t, w') /\ source w' = source w.
Proof.
  unfold time. destruct (clock w) as [|t ts]; [now exists 0, w|].
  now exists t, (with_clock ts w).
Qed.

Lemma throttled_progress_passive (cb : option callback) (sent length ts : Z)
    (w : World) :
  passive cb ->
  exists ts' w',
    throttled_progress cb sent length ts w = (Ret ts', w')
    /\ source w' = source w.
Proof.
  intros Hcb. unfold throttled_progress. destruct cb as [cb|];
    [|now exists ts, w].
  unfold bind at 1. destruct (time_keeps_source w) as (t & w1 & Ht & Hs1).
  rewrite Ht. destruct (t - ts >? 1000); [|now exists ts, w1].
  unfold bind at 1. destruct (time_keeps_source w1) as (t2 & w2 & Ht2 & Hs2).
  rewrite Ht2. unfold bind. destruct (Hcb sent length w2) as (w3 & Hcall & Hs3).
  rewrite Hcall. exists t2, w3. split; [reflexivity|congruence].
Qed.

(** When a zero-length read comes before [length] bytes have been read, the
    loop raises the upload error. *)
Lemma upload_loop_starved (length : Z) (cb : option callback) (tail : list bytes)
    (fuel : nat) :
  passive cb ->
  hd [] tail = [] ->
  forall (sent ts : Z) (pre : list bytes) (w : World),
    Forall (fun x => x <> []) pre ->
    source w = pre ++ tail ->
    sent + total pre < length ->
    (Z.to_nat (length - sent) <= fuel)%nat ->
    exists w',
      upload_loop fuel length sent ts cb w
      = (Raise (RobotError [lit "Upload file error"]), w').
Proof.
  intros Hcb Htail.
  induction fuel as [|fuel IH]; intros sent ts pre w Hpre Hsrc Htot Hfuel;
    pose proof (total_nonneg pre); [lia|].
  cbn [upload_loop].
  replace (sent <? length) with true by (symmetry; apply Z.ltb_lt; lia).
  destruct pre as [|c pre].
  - run. unfold stream_read. rewrite Hsrc. cbn [app].
    destruct tail as [|c tail]; [now eexists|].
    simpl in Htail. subst c. cbn. now eexists.
  - inversion Hpre as [|? ? Hc Hpre']; subst.
    destruct (stream_read_chunk c pre tail w Hc Hsrc)
      as (buf & w1 & pre1 & Hread & Hlen & Hsrc1 & Htot1 & Hne1 & _).
    run. rewrite Hread. cbv zeta.
    replace (len buf =? 0) with false by (symmetry; apply Z.eqb_neq; lia).
    unfold sock_send. run.
    match goal with
    | |- context [throttled_progress cb ?s ?l ?t ?x] =>
        destruct (throttled_progress_passive cb s l t x Hcb) as (ts' & w2 & Hcall & Hsrc2)
    end.
    rewrite Hcall.
    apply (IH (sent + len buf) ts' pre1 w2); auto.
    + rewrite Hsrc2. exact Hsrc1.
    + lia.
    + lia.
Qed.

(** Without a callback, a source that supplies [length] bytes makes the
    loop return, having touched neither the reads nor the waits of the
    connection. *)
Lemma upload_loop_supplied (length : Z) (fuel : nat) :
  forall (sent ts : Z) (pre : list bytes) (rest : list bytes) (w : World),
    Forall (fun x => x <> []) pre ->
    source w = pre ++ rest ->
    length <= sent + total pre ->
    (Z.to_nat (length - sent) <= fuel)%nat ->
    exists sent' w',
      upload_loop fuel length sent ts None w = (Ret sent', w')
      /\ length <= sent'
      /\ reads w' = reads w.
Proof.
  induction fuel as [|fuel IH]; intros sent ts pre rest w Hpre Hsrc Htot Hfuel;
    cbn [upload_loop]; destruct (Z.ltb_spec sent length) as [Hlt|Hge];
    try (exists sent, w; repeat split; auto; lia); try lia.
  destruct pre as [|c pre]; [unfold total in Htot; simpl in Htot; unfold len in Htot; simpl in Htot; lia|].
  inversion Hpre as [|? ? Hc Hpre']; subst.
  destruct (stream_read_chunk c pre rest w Hc Hsrc)
    as (buf & w1 & pre1 & Hread & Hlen & Hsrc1 & Htot1 & Hne1 & Hsock1).
  run. rewrite Hread. cbv zeta.
  replace (len buf =? 0) with false by (symmetry; apply Z.eqb_neq; lia).
  unfold sock_send, throttled_progress. run.
  match goal with
  | |- context [upload_loop fuel length _ ts None ?x] => set (w2 := x)
  end.
  destruct (IH (sent + len buf) ts pre1 rest w2) as (sent' & w' & Hloop & Hsent & Hreads);
    auto; try lia.
  exists sent', w'. rewrite Hloop. repeat split; auto.
  rewrite Hreads. subst w2. unfold reads. cbn. now rewrite Hsock1.
Qed.

Lemma source_sock_blind : sock_blind source.
Proof. now intros g w. Qed.

Lemma preserves_make_cmd {X} (f : World -> X) (buf : bytes) :
  sock_blind f -> preserves f (_make_cmd buf).
Proof.
  intros Hf. unfold _make_cmd. apply preserves_bind;
    [now apply preserves_send_cmd|intros _; now apply preserves_get_resp].
Qed.

Section Upload.
Context `{C : Codec}.

(** C6: in an upload of declared length [L > 0] whose negotiation returned
    "continue", a read of the source that returns zero bytes (or the end of
    the source) before [L] bytes have been read makes the call raise the
    upload error; it does not complete. *)
Theorem upload_stream_source_exhausted
    (fuel : nat) (length : Z) (mimetype upload_to cmd : str)
    (cb : option callback) (bcmd bret : bytes) (pre tail : list bytes)
    (w w1 : World) :
  0 < length ->
  utf8_encode (cmd ++ lit " " ++ mimetype ++ lit " " ++ str_of_int length
                   ++ lit " " ++ upload_to) = Some bcmd ->
  _make_cmd bcmd w = (Ret bret, w1) ->
  decode_ascii_ignore bret = lit "continue" ->
  passive cb ->
  source w = pre ++ tail ->
  Forall (fun x => x <> []) pre ->
  hd [] tail = [] ->
  total pre < length ->
  (Z.to_nat length <= fuel)%nat ->
  exists w',
    upload_stream fuel length mimetype upload_to cmd cb w
    = (Raise (RobotError [lit "Upload file error"]), w').
Proof.
  intros Hpos Henc Hmake Hdec Hcb Hsrc Hpre Htail Htot Hfuel.
  unfold upload_stream. cbv zeta. rewrite Henc. run. rewrite Hmake, Hdec.
  change (str_eqb (lit "continue") (lit "continue")) with true.
  cbn [negb]. unfold logf. run.
  match goal with
  | |- context [upload_loop fuel length 0 0 cb ?x] => set (w2 := x)
  end.
  assert (Hsrc2 : source w2 = pre ++ tail).
  { pose proof (preserves_make_cmd source bcmd source_sock_blind w) as Hk.
    rewrite Hmake in Hk. simpl in Hk. subst w2. cbn. congruence. }
  destruct (upload_loop_starved length cb tail fuel Hcb Htail 0 0 pre w2 Hpre Hsrc2)
    as (w' & Hloop); [lia|rewrite Z.sub_0_r; exact Hfuel|].
  rewrite Hloop. now exists w'.
Qed.

(** C9: an upload made without a progress callback, whose negotiation
    returned "continue" and whose source supplies the declared length,
    raises [TypeError] when the callback is called after the send loop; the
    connection has not been waited on or read since the negotiation, so the
    final response frame is never read and the call cannot complete. *)
Theorem upload_stream_without_callback
    (fuel : nat) (length : Z) (mimetype upload_to cmd : str)
    (bcmd bret : bytes) (pre rest : list bytes) (w w1 : World) :
  utf8_encode (cmd ++ lit " " ++ mimetype ++ lit " " ++ str_of_int length
                   ++ lit " " ++ upload_to) = Some bcmd ->
  _make_cmd bcmd w = (Ret bret, w1) ->
  decode_ascii_ignore bret = lit "continue" ->
  source w = pre ++ rest ->
  Forall (fun x => x <> []) pre ->
  length <= total pre ->
  (Z.to_nat length <= fuel)%nat ->
  exists w',
    upload_stream fuel length mimetype upload_to cmd None w = (Raise TypeError, w')
    /\ reads w' = reads w1.
Proof.
  intros Henc Hmake Hdec Hsrc Hpre Htot Hfuel.
  unfold upload_stream. cbv zeta. rewrite Henc. run. rewrite Hmake, Hdec.
  change (str_eqb (lit "continue") (lit "continue")) with true.
  cbn [negb]. unfold logf. run.
  match goal with
  | |- context [upload_loop fuel length 0 0 None ?x] => set (w2 := x)
  end.
  assert (Hsrc2 : source w2 = pre ++ rest).
  { pose proof (preserves_make_cmd source bcmd source_sock_blind w) as Hk.
    rewrite Hmake in Hk. simpl in Hk. subst w2. cbn. congruence. }
  destruct (upload_loop_supplied length fuel 0 0 pre rest w2 Hpre Hsrc2)
    as (sent & w' & Hloop & _ & Hreads); [lia|rewrite Z.sub_0_r; exact Hfuel|].
  rewrite Hloop. exists w'. split; [reflexivity|]. rewrite Hreads. reflexivity.
Qed.

(** Without a callback no upload completes, whatever the device and the
    source do. *)
Lemma upload_stream_without_callback_never_completes
    (fuel : nat) (length : Z) (mimetype upload_to cmd : str) (w : World) :
  fst (upload_stream fuel length mimetype upload_to cmd None w) <> Ret tt.
Proof.
  unfold upload_stream. cbv zeta. unfold bind at 1.
  destruct (orraise UnicodeError (utf8_encode _) w) as [[bcmd|e|] w0];
    cbn [fst]; try discriminate.
  unfold bind at 1. destruct (_make_cmd bcmd w0) as [[bret|e|] w1];
    cbn [fst]; try discriminate.
  destruct (str_eqb (decode_ascii_ignore bret) (lit "continue"));
    cbn [negb]; unfold logf; run; [|discriminate].
  match goal with
  | |- context [upload_loop fuel length 0 0 None ?x] =>
      destruct (upload_loop fuel length 0 0 None x) as [[sent|e|] w2]
  end; cbn [fst]; discriminate.
Qed.

End Upload.

Lemma record_progress_passive : passive (Some record_progress).
Proof. intros sent length w. eexists. split; reflexivity. Qed.

Lemma upload_stream_source_exhausted_witness :
  let w := with_source [blit "G28"; []; blit "G1 X10"]
             (incoming [[x08; x00] ++ blit "continue"]) in
  exists w',
    @upload_stream ascii_codec 16 10 (lit "text/gcode") (lit "#") (lit "upload")
      (Some record_progress) w
    = (Raise (RobotError [lit "Upload file error"]), w').
Proof.
  intros w.
  apply (@upload_stream_source_exhausted ascii_codec 16 10
           (lit "text/gcode") (lit "#") (lit "upload") (Some record_progress)
           (blit "upload text/gcode 10 #") (blit "continue")
           [blit "G28"] [[]; blit "G1 X10"] w
           (snd (_make_cmd (blit "upload text/gcode 10 #") w))).
  - lia.
  - reflexivity.
  - reflexivity.
  - reflexivity.
  - exact record_progress_passive.
  - reflexivity.
  - repeat constructor; discriminate.
  - reflexivity.
  - vm_compute. reflexivity.
  - vm_compute. lia.
Defined.

Lemma upload_stream_without_callback_witness :
  let w := with_source [blit "G28"; blit "G1 X10"]
             (incoming [[x08; x00] ++ blit "continue"; [x02; x00] ++ blit "ok"]) in
  exists w',
    @upload_stream ascii_codec 16 9 (lit "text/gcode") (lit "#") (lit "upload")
      None w
    = (Raise TypeError, w')
    /\ reads w' = reads (snd (_make_cmd (blit "upload text/gcode 9 #") w)).
Proof.
  intros w.
  apply (@upload_stream_without_callback ascii_codec 16 9
           (lit "text/gcode") (lit "#") (lit "upload")
           (blit "upload text/gcode 9 #") (blit "continue")
           [blit "G28"; blit "G1 X10"] [] w).
  - reflexivity.
  - reflexivity.
  - reflexivity.
  - reflexivity.
  - repeat constructor; discriminate.
  - vm_compute. discriminate.
  - vm_compute. lia.
Defined.

(** ** Discovery: requests and the key fetch *)

Import Upnp.

Lemma bsplit1_without_sep (sep : byte) (b : bytes) :
  ~ In sep b -> bsplit1 sep b = [b].
Proof.
  induction b as [|c b IH]; intros Hnot; [reflexivity|].
  simpl. destruct (Byte.eqb c sep) eqn:Hc.
  - apply Byte.byte_dec_bl in Hc. subst c. now destruct Hnot; left.
  - rewrite IH; [reflexivity|]. intros Hin. apply Hnot. now right.
Qed.

Section Discovery.
Context `{E : Encryptor}.
Variables CODE_RSA_KEY CODE_RESPONSE_RSA_KEY : Z.

#[local] Abbreviation _parse_response := (Upnp._parse_response CODE_RESPONSE_RSA_KEY).
#[local] Abbreviation await := (Upnp.await CODE_RESPONSE_RSA_KEY).
#[local] Abbreviation make_request := (Upnp.make_request CODE_RESPONSE_RSA_KEY).
#[local] Abbreviation key_request := (Upnp.key_request CODE_RSA_KEY CODE_RESPONSE_RSA_KEY).
#[local] Abbreviation idle_attempts := (Upnp.idle_attempts CODE_RSA_KEY CODE_RESPONSE_RSA_KEY).
#[local] Abbreviation passed_over := (Upnp.passed_over CODE_RESPONSE_RSA_KEY).
#[local] Abbreviation fetch_publickey_from :=
  (Upnp.fetch_publickey_from CODE_RSA_KEY CODE_RESPONSE_RSA_KEY).
#[local] Abbreviation fetch_publickey := (Upnp.fetch_publickey CODE_RSA_KEY CODE_RESPONSE_RSA_KEY).
#[local] Abbreviation init_pubkey := (Upnp.init_pubkey CODE_RSA_KEY CODE_RESPONSE_RSA_KEY).

Lemma await_passed_over (self : UpnpBase) (resp_code : Z) (skipped rest : list event) :
  Forall (passed_over self resp_code) skipped ->
  await self resp_code (skipped ++ rest) = await self resp_code rest.
Proof.
  induction 1 as [|ev skipped Hev _ IH]; [reflexivity|].
  destruct ev as [d|]; [|now destruct Hev].
  destruct Hev as (resp & Hparse & Hfalsy). cbn [app Upnp.await].
  now rewrite Hparse, Hfalsy.
Qed.

(** C10: a reply datagram whose bytes after the first two hold no NUL makes
    [_parse_response] raise [ValueError], whatever response code is
    expected, so also when the code of the datagram is another one; the
    exception leaves [make_request] with that datagram consumed, instead of
    the reply being passed over and the wait going on. *)
Theorem make_request_reply_without_nul
    (self : UpnpBase) (req_code resp_code : Z) (message : bytes) (encrypt : bool)
    (net : Net) (skipped rest : list event) (d : bytes) :
  ~ In x00 (slice (Some 2) None (firstn 1024 d)) ->
  0 <= req_code <= 255 ->
  (message = [] \/ encrypt = false \/ remote_keyobj self <> None) ->
  Forall (passed_over self resp_code) skipped ->
  inbox net = skipped ++ Datagram d :: rest ->
  (forall code, _parse_response self (firstn 1024 d) code = Raise ValueError)
  /\ exists net',
       make_request self req_code resp_code message encrypt net
       = (Raise ValueError, net')
       /\ inbox net' = rest.
Proof.
  intros Hnul Hcode Hmsg Hskip Hin.
  assert (Hparse : forall code, _parse_response self (firstn 1024 d) code = Raise ValueError).
  { intros code. unfold Upnp._parse_response. now rewrite bsplit1_without_sep. }
  split; [exact Hparse|].
  assert (Hawait : await self resp_code (inbox net) = (Raise ValueError, rest)).
  { rewrite Hin, await_passed_over by exact Hskip. cbn [Upnp.await].
    now rewrite Hparse. }
  unfold Upnp.make_request, pack_header, sendto.
  replace ((0 <=? req_code) && (req_code <=? 255)) with true
    by (symmetry; apply andb_true_iff; lia).
  destruct message as [|m message]; run; cbn [inbox outbox];
    [rewrite Hawait; now eexists|].
  destruct encrypt; run; cbn [inbox outbox]; [|rewrite Hawait; now eexists].
  destruct (remote_keyobj self) as [k|]; [|now destruct Hmsg as [|[|]]].
  run. cbn [inbox outbox]. rewrite Hawait. now eexists.
Qed.

(** A key that the key-fetch parse returns has verified the signature of
    the reply that carried it. *)
Lemma parse_key_validated (self : UpnpBase) (buf : bytes) (key : json) :
  _parse_response self buf CODE_RESPONSE_RSA_KEY = Ret (Some key) ->
  exists remote payload signature,
    bsplit1 x00 (slice (Some 2) None buf) = [payload; signature]
    /\ load_keyobj key = Some remote
    /\ validate_signature remote payload signature = true.
Proof.
  unfold Upnp._parse_response. rewrite Z.eqb_refl.
  destruct (bsplit1 x00 (slice (Some 2) None buf)) as [|payload [|signature [|]]];
    try discriminate.
  destruct (unpack_BB (slice None (Some 2) buf)) as [[code status]|]; [|discriminate].
  destruct (negb (code =? CODE_RESPONSE_RSA_KEY)); [discriminate|].
  destruct (negb (status =? 0)); [destruct (utf8_decode payload); discriminate|].
  destruct (utf8_decode payload) as [text|]; [|discriminate].
  destruct (json_loads text) as [resp|]; [|discriminate].
  destruct (load_keyobj resp) as [remote|] eqn:Hload; [|discriminate].
  destruct (validate_signature remote payload signature) eqn:Hval; [|discriminate].
  intros [= <-]. now exists remote, payload, signature.
Qed.

Lemma await_key_validated (self : UpnpBase) (events rest : list event) (key : json) :
  await self CODE_RESPONSE_RSA_KEY events = (Ret (Some key), rest) ->
  exists d remote payload signature,
    In (Datagram d) events
    /\ bsplit1 x00 (slice (Some 2) None (firstn 1024 d)) = [payload; signature]
    /\ load_keyobj key = Some remote
    /\ validate_signature remote payload signature = true.
Proof.
  induction events as [|ev events IH]; [discriminate|].
  destruct ev as [d|]; [|discriminate]. cbn [Upnp.await].
  destruct (_parse_response self (firstn 1024 d) CODE_RESPONSE_RSA_KEY)
    as [resp|e|] eqn:Hparse; [|discriminate|discriminate].
  destruct (truthy resp).
  - intros [= -> <-].
    destruct (parse_key_validated _ _ _ Hparse) as (remote & payload & signature & H1 & H2 & H3).
    exists d, remote, payload, signature. repeat split; auto. now left.
  - intros Hrest. destruct (IH Hrest) as (d' & remote & payload & signature & Hin & Hs).
    exists d', remote, payload, signature. split; [now right|exact Hs].
Qed.

(** A key-fetch exchange that returns has sent exactly one request, and
    what it returns comes from the wait loop. *)
Lemma key_request_returns (self : UpnpBase) (net net' : Net) (resp : option json) :
  key_request self net = (Ret resp, net') ->
  List.length (outbox net') = S (List.length (outbox net))
  /\ await self CODE_RESPONSE_RSA_KEY (inbox net) = (Ret resp, inbox net').
Proof.
  unfold Upnp.key_request, Upnp.make_request, sendto. run.
  destruct (pack_header (serial self) CODE_RSA_KEY) as [header|]; [|discriminate].
  cbn [inbox outbox].
  destruct (await self CODE_RESPONSE_RSA_KEY (inbox net)) as [o rest].
  intros [= -> <-]. cbn [inbox outbox]. rewrite length_app. simpl. split; [lia|reflexivity].
Qed.

Lemma idle_attempts_outbox (self : UpnpBase) (k : nat) :
  forall net net1,
    idle_attempts self k net = Some net1 ->
    List.length (outbox net1) = (List.length (outbox net) + k)%nat.
Proof.
  induction k as [|k IH]; intros net net1; cbn [Upnp.idle_attempts].
  - intros [= <-]. lia.
  - destruct (key_request self net) as [[resp|e|] net'] eqn:Hreq; try discriminate.
    destruct (truthy resp); [discriminate|]. intros Hidle.
    apply IH in Hidle. apply key_request_returns in Hreq. lia.
Qed.

(** Exchanges that end without a response each use up one retry. *)
Lemma fetch_after_idle (self : UpnpBase) (k : nat) :
  forall retry net net1,
    idle_attempts self k net = Some net1 ->
    (k <= retry)%nat ->
    fetch_publickey_from self retry net = fetch_publickey_from self (retry - k) net1.
Proof.
  induction k as [|k IH]; intros retry net net1; cbn [Upnp.idle_attempts].
  - intros [= <-] _. now rewrite Nat.sub_0_r.
  - destruct (key_request self net) as [[resp|e|] net'] eqn:Hreq; try discriminate.
    destruct (truthy resp) eqn:Hfalsy; [discriminate|]. intros Hidle Hk.
    destruct retry as [|retry]; [lia|].
    cbn [Upnp.fetch_publickey_from]. unfold bind at 1.
    unfold Upnp.key_request in Hreq. rewrite Hreq.
    change (S retry - S k)%nat with (retry - k)%nat.
    rewrite <- (IH retry net' net1 Hidle ltac:(lia)). cbv zeta.
    destruct resp as [key|]; [|reflexivity].
    simpl in Hfalsy. now rewrite Hfalsy.
Qed.

Lemma fetch_first_response (self : UpnpBase) (retry : nat) (net net' : Net) (key : json) :
  key_request self net = (Ret (Some key), net') ->
  json_truthy key = true ->
  fetch_publickey_from self retry net = (Ret key, net').
Proof.
  intros Hreq Hkey. unfold Upnp.key_request in Hreq.
  destruct retry; cbn [Upnp.fetch_publickey_from]; unfold bind at 1;
    now rewrite Hreq, Hkey.
Qed.

Lemma fetch_exhausted (self : UpnpBase) (net net' : Net) :
  idle_attempts self 1 net = Some net' ->
  fetch_publickey_from self 0 net
  = (Raise (RuntimeError [lit "TIMEOUT"; lit "fetch public key"]), net').
Proof.
  cbn [Upnp.idle_attempts Upnp.fetch_publickey_from]. unfold bind at 1.
  unfold Upnp.key_request.
  destruct (Upnp.make_request CODE_RESPONSE_RSA_KEY self CODE_RSA_KEY
              CODE_RESPONSE_RSA_KEY [] true net) as [[resp|e|] net1]; try discriminate.
  destruct (truthy resp) eqn:Hfalsy; [discriminate|]. intros [= <-].
  destruct resp as [key|]; [|reflexivity]. simpl in Hfalsy. now rewrite Hfalsy.
Qed.

Lemma idle_attempts_split (self : UpnpBase) (k : nat) :
  forall net net2,
    idle_attempts self (S k) net = Some net2 ->
    exists net1, idle_attempts self k net = Some net1
                 /\ idle_attempts self 1 net1 = Some net2.
Proof.
  induction k as [|k IH]; intros net net2 Hidle.
  - exists net. split; [reflexivity|exact Hidle].
  - cbn [Upnp.idle_attempts] in Hidle |- *.
    destruct (key_request self net) as [[resp|e|] net'] eqn:Hreq; try discriminate.
    destruct (truthy resp); [discriminate|]. now apply IH.
Qed.


End Discovery.

(** *** The discovery model on concrete traffic *)

Lemma make_request_reply_without_nul_witness :
  let self := @mkUpnpBase ascii_codec toy_encryptor (repeat x11 16) None in
  let d := [x09; x00] ++ blit "{}" in
  let net := mkNet [Datagram d; Silence] [] in
  (forall code,
     @Upnp._parse_response ascii_codec toy_encryptor 7 self (firstn 1024 d) code
     = Raise ValueError)
  /\ exists net',
       @Upnp.make_request ascii_codec toy_encryptor 7 self 6 7 [] true net
       = (Raise ValueError, net')
       /\ inbox net' = [Silence].
Proof.
  intros self d net.
  apply (@make_request_reply_without_nul ascii_codec toy_encryptor 7 self 6 7 [] true
           net [] [Silence] d).
  - vm_compute. intuition discriminate.
  - lia.
  - left. reflexivity.
  - constructor.
  - reflexivity.
Defined.


(** Two exchanges without a response, then a reply that verifies: the key
    is returned after three requests, and the events after the reply are
    still to come. *)
Example fetch_publickey_third_attempt :
  let self := @mkUpnpBase ascii_codec toy_encryptor (repeat x11 16) None in
  let reply := [x07; x00] ++ blit "KEY" ++ [x00] ++ blit "KEYKEY" in
  let request := blit "FLUX" ++ repeat x11 16 ++ [x06] in
  @Upnp.init_pubkey ascii_codec toy_encryptor 6 7 self None
    (mkNet [Silence; Silence; Datagram reply; Silence] [])
  = (Ret (lit "KEY", blit "KEY"), mkNet [Silence] [request; request; request]).
Proof. reflexivity. Qed.

(** Twenty-one exchanges without a response: TIMEOUT after 21 requests; a
    reply that would come later is never waited for. *)
Example fetch_publickey_gives_up :
  let self := @mkUpnpBase ascii_codec toy_encryptor (repeat x11 16) None in
  let reply := [x07; x00] ++ blit "KEY" ++ [x00] ++ blit "KEYKEY" in
  let request := blit "FLUX" ++ repeat x11 16 ++ [x06] in
  @Upnp.init_pubkey ascii_codec toy_encryptor 6 7 self None
    (mkNet (repeat Silence 21 ++ [Datagram reply]) [])
  = (Raise (RuntimeError [lit "TIMEOUT"; lit "fetch public key"]),
     mkNet [Datagram reply] (repeat request 21)).
Proof. reflexivity. Qed.

(** * Further properties of the robot client *)

(** ** Framing at its limits *)

(** A payload of more than 65533 bytes does not fit the two-byte prefix:
    [_make_cmd] raises [struct.error] before anything is written or read. *)
Theorem make_cmd_oversized (P : bytes) (w : World) :
  65533 < len P ->
  _make_cmd P w = (Raise StructError, w).
Proof.
  intros HP. unfold _make_cmd, _send_cmd, pack_H.
  replace ((0 <=? len P + 2) && (len P + 2 <=? 65535)) with false; [reflexivity|].
  symmetry. apply andb_false_iff. right. apply Z.leb_gt. lia.
Qed.

Lemma make_cmd_oversized_witness :
  _make_cmd (repeat x00 (Z.to_nat 65534)) (incoming [[x02; x00] ++ blit "ok"])
  = (Raise StructError, incoming [[x02; x00] ++ blit "ok"]).
Proof.
  apply (make_cmd_oversized (repeat x00 (Z.to_nat 65534))).
  unfold len. rewrite repeat_length. lia.
Defined.

(** After the readiness wait, [get_resp] goes on from a world that differs
    only by the answer of [select] that has been used up. *)
Lemma get_resp_when_readable (timeout : Z) (w : World) :
  readable w ->
  exists w1,
    rx (sock w1) = rx (sock w)
    /\ asked (sock w1) = asked (sock w)
    /\ beside_rx w1
       = (tx (sock w), tl (ready (sock w)), source w, clock w, progress w,
          yielded w, log w)
    /\ get_resp timeout w
       = (bml <- sock_recv_waitall 2 ;;
          match bml with
          | [] => raise (SocketError EPIPE (lit "Broken pipe"))
          | _ =>
              message_length <- orraise StructError (unpack_H bml) ;;
              sock_recv_waitall message_length
          end) w1.
Proof.
  intros Hr. unfold readable in Hr. unfold get_resp, select_readable.
  unfold bind at 1. destruct (ready (sock w)) as [|r rs] eqn:Hrd.
  - exists w. unfold beside_rx. rewrite Hrd. repeat split.
  - simpl in Hr. subst r.
    exists (with_sock (fun s => mkSocket (rx s) (tx s) rs (asked s)) w).
    repeat split.
Qed.



(** On a readable connection that the peer has closed, [get_resp] raises
    the broken-pipe socket error when nothing is left, and [struct.error]
    when a single byte is left. *)
Theorem get_resp_closed_stream (timeout : Z) (w : World) :
  readable w ->
  (List.length (pending w) < 2)%nat ->
  exists w',
    get_resp timeout w
    = (Raise (match pending w with
              | [] => SocketError EPIPE (lit "Broken pipe")
              | _ => StructError
              end), w')
    /\ pending w' = [].
Proof.
  intros Hr Hlen.
  destruct (get_resp_when_readable timeout w Hr) as (w1 & Hrx & _ & _ & Hg).
  rewrite Hg. unfold bind at 1.
  destruct (recv_waitall_pending 2 w1 ltac:(lia)) as (w2 & H2 & Hp2 & _).
  assert (Hp1 : pending w1 = pending w) by (unfold pending; now rewrite Hrx).
  rewrite H2, Hp1. rewrite Hp1 in Hp2.
  assert (Hall : (List.length (pending w) <= Z.to_nat 2)%nat) by (simpl; lia).
  rewrite firstn_all2 by exact Hall. rewrite skipn_all2 in Hp2 by exact Hall.
  exists w2. split; [|exact Hp2].
  destruct (pending w) as [|c [|c' rest]]; [reflexivity|reflexivity|simpl in Hlen; lia].
Qed.

Lemma get_resp_closed_stream_witness :
  exists w',
    get_resp 30000 (incoming [[x02]])
    = (Raise (match pending (incoming [[x02]]) with
              | [] => SocketError EPIPE (lit "Broken pipe")
              | _ => StructError
              end), w')
    /\ pending w' = [].
Proof.
  apply (get_resp_closed_stream 30000 (incoming [[x02]])).
  - reflexivity.
  - simpl. lia.
Defined.

Lemma always_readable_now (w : World) : always_readable w -> readable w.
Proof.
  unfold always_readable, readable. destruct (ready (sock w)) as [|r rs]; [easy|].
  simpl. now intros [-> _]%andb_true_iff.
Qed.

Lemma always_readable_later (w w' : World) :
  always_readable w -> ready (sock w') = tl (ready (sock w)) -> always_readable w'.
Proof.
  unfold always_readable. intros Hall ->. destruct (ready (sock w)) as [|r rs]; [easy|].
  simpl in *. now apply andb_true_iff in Hall.
Qed.



(** ** Commands that answer ok or error *)

(** One command exchange: the frame of the command is written, the frame of
    the response is read and its payload returned. *)
Lemma make_cmd_exchange (cmd R pre rest : bytes) (w : World) :
  len cmd + 2 <= 65535 ->
  pack_H (len R) = Some pre ->
  readable w ->
  pending w = pre ++ R ++ rest ->
  exists frame w',
    command_frame cmd = Some frame
    /\ _make_cmd cmd w = (Ret R, w')
    /\ tx (sock w') = tx (sock w) ++ [frame]
    /\ pending w' = rest
    /\ ready (sock w') = tl (ready (sock w))
    /\ (source w', clock w', progress w', yielded w', log w')
       = (source w, clock w, progress w, yielded w, log w).
Proof.
  intros Hcmd Hpre Hr Hp.
  destruct (send_cmd_writes cmd w Hcmd) as (frame & Hframe & Hsend).
  set (w0 := with_sock (fun s => mkSocket (rx s) (tx s ++ [frame]) (ready s) (asked s)) w)
    in Hsend.
  destruct (get_resp_frame default_timeout w0 pre R rest Hpre Hr Hp)
    as (w' & Hg & Hp' & Ht & Hrd & Hrest).
  exists frame, w'. split; [exact Hframe|].
  split; [unfold _make_cmd, bind; now rewrite Hsend|].
  split; [exact Ht|]. split; [exact Hp'|]. split; [exact Hrd|exact Hrest].
Qed.

Section Commands.
Context `{C : Codec}.

Lemma ok_or_error_exchange (cmd R pre rest : bytes) (w : World) :
  len cmd + 2 <= 65535 ->
  pack_H (len R) = Some pre ->
  readable w ->
  pending w = pre ++ R ++ rest ->
  exists frame w',
    command_frame cmd = Some frame
    /\ ok_or_error (_make_cmd cmd) w
       = (ok_or_error_outcome (utf8_decode_ignore R), w')
    /\ tx (sock w') = tx (sock w) ++ [frame]
    /\ pending w' = rest.
Proof.
  intros Hcmd Hpre Hr Hp.
  destruct (make_cmd_exchange cmd R pre rest w Hcmd Hpre Hr Hp)
    as (frame & w' & Hframe & Hmk & Ht & Hp' & _).
  exists frame, w'. split; [exact Hframe|]. split; [|now split].
  unfold ok_or_error, ok_or_error_outcome, bind. rewrite Hmk.
  now destruct (str_eqb (utf8_decode_ignore R) (lit "ok")).
Qed.




End Commands.




(** ** Binary attachments: headers and sizes *)


(** The attachment read, with what it leaves alone on the connection. *)
Lemma recv_binary_supplied (fuel : nat) (header mimetype ssize : str)
    (size : Z) (w : World) :
  split 32 header = [lit "binary"; mimetype; ssize] ->
  int ssize = Some size ->
  size <= len (pending w) ->
  (Z.to_nat size <= fuel)%nat ->
  exists w',
    recv_binary fuel header w
      = (Ret (mimetype, firstn (Z.to_nat size) (pending w)), w')
    /\ pending w' = skipn (Z.to_nat size) (pending w)
    /\ tx (sock w') = tx (sock w)
    /\ ready (sock w') = ready (sock w)
    /\ yielded w' = yielded w.
Proof.
  intros Hsplit Hint Hlen Hfuel. unfold recv_binary. rewrite Hsplit.
  cbv beta iota.
  change (str_eqb (lit "binary") (lit "binary")) with true. cbn [negb].
  rewrite Hint. unfold logf. run. cbv beta.
  match goal with |- context [recv_binary_loop _ _ _ ?x] => set (w0 := x) end.
  destruct (recv_binary_loop_complete fuel size [] w0 Hlen Hfuel)
    as (w' & reqs & Hloop & Hp & _ & _ & Hb).
  rewrite Hloop. exists w'. unfold beside_rx in Hb.
  injection Hb as Ht Hr _ _ _ Hy _. now repeat split.
Qed.



Lemma split_length (sep : N) (s : str) :
  List.length (split sep s) = S (count_occ N.eq_dec s sep).
Proof.
  induction s as [|c s IH]; [reflexivity|].
  simpl. destruct (N.eqb_spec c sep) as [->|Hne].
  - destruct (N.eq_dec sep sep) as [_|Hn]; [|contradiction]. simpl. now rewrite IH.
  - destruct (N.eq_dec c sep) as [He|_]; [contradiction|].
    destruct (split sep s) as [|t ts]; [discriminate IH|exact IH].
Qed.

(** A header that does not hold exactly two spaces has not three fields:
    the call raises [ValueError] and the connection is left as it was. *)
Theorem recv_binary_field_count (fuel : nat) (header : str) (w : World) :
  count_occ N.eq_dec header 32%N <> 2%nat ->
  recv_binary fuel header w = (Raise ValueError, w).
Proof.
  intros Hcount. pose proof (split_length 32 header) as Hlen.
  unfold recv_binary.
  destruct (split 32 header) as [|a [|b [|c [|d l]]]]; try reflexivity.
  simpl in Hlen. congruence.
Qed.

Lemma recv_binary_field_count_witness :
  recv_binary 8 (lit "binary image/png  5") (incoming [blit "abcde"])
  = (Raise ValueError, incoming [blit "abcde"]).
Proof.
  apply (recv_binary_field_count 8 (lit "binary image/png  5")).
  vm_compute. discriminate.
Defined.

(** ** Collecting attachments *)

Lemma startswith_binary (s mimetype : str) (more : list str) :
  split 32 s = lit "binary" :: mimetype :: more ->
  startswith (lit "binary ") s = true.
Proof.
  intros Hs. rewrite <- (join_split 32 s), Hs. reflexivity.
Qed.

Lemma response_frame_prefix (R frame : bytes) :
  response_frame R = Some frame ->
  exists pre, pack_H (len R) = Some pre /\ frame = pre ++ R.
Proof.
  unfold response_frame. destruct (pack_H (len R)) as [pre|]; [|discriminate].
  intros [= <-]. now exists pre.
Qed.

(** The loop of [oneshot] on attachments followed by one frame of text that
    is not another header: the attachments are collected in order, and the
    text decides the end. *)
Lemma images_loop_run (rfuel : nat) (atts : list attachment) :
  forall (fuel : nat) (acc : list (str * bytes)) (wire R pre rest : bytes) (w : World),
    Forall well_announced atts ->
    Forall (fun a => (Z.to_nat (len (at_payload a)) <= rfuel)%nat) atts ->
    attachments_wire atts = Some wire ->
    pack_H (len R) = Some pre ->
    startswith (lit "binary ") (decode_ascii_ignore R) = false ->
    always_readable w ->
    pending w = wire ++ pre ++ R ++ rest ->
    (List.length atts < fuel)%nat ->
    exists w',
      images_loop rfuel fuel acc w
      = (if str_eqb (decode_ascii_ignore R) (lit "ok")
         then Ret (acc ++ map (fun a => (at_mimetype a, at_payload a)) atts)
         else Raise (RuntimeError [decode_ascii_ignore R]), w')
      /\ pending w' = rest
      /\ tx (sock w') = tx (sock w).
Proof.
  induction atts as [|a atts IH];
    intros fuel acc wire R pre rest w Hwell Hfuel Hwire Hpre Htext Hall Hp Hlen;
    (destruct fuel as [|fuel]; [simpl in Hlen; lia|]); cbn [images_loop].
  - injection Hwire as <-. cbn [app] in Hp.
    destruct (get_resp_frame default_timeout w pre R rest Hpre
                (always_readable_now w Hall) Hp) as (w' & Hg & Hp' & Ht & _).
    exists w'. unfold bind. rewrite Hg. cbv zeta. rewrite Htext.
    rewrite app_nil_r. split; [|now split].
    now destruct (str_eqb (decode_ascii_ignore R) (lit "ok")).
  - inversion Hwell as [|? ? [Hsplit Hint] Hwell']; subst.
    inversion Hfuel as [|? ? Hrf Hfuel']; subst.
    cbn [attachments_wire] in Hwire.
    destruct (response_frame (at_header a)) as [f|] eqn:Hf; [|discriminate].
    destruct (attachments_wire atts) as [fs|] eqn:Hfs; [|discriminate].
    injection Hwire as <-.
    destruct (response_frame_prefix _ _ Hf) as (hpre & Hhpre & ->).
    rewrite <- !app_assoc in Hp.
    destruct (get_resp_frame default_timeout w hpre (at_header a) _ Hhpre
                (always_readable_now w Hall) Hp) as (w1 & Hg & Hp1 & Ht1 & Hr1 & _).
    unfold bind at 1. rewrite Hg. cbv zeta.
    rewrite (startswith_binary _ _ _ Hsplit).
    destruct (recv_binary_supplied rfuel _ _ _ _ w1 Hsplit Hint) as
      (w2 & Hrb & Hp2 & Ht2 & Hr2 & _);
      [rewrite Hp1, len_app; pose proof (len_nonneg (fs ++ pre ++ R ++ rest)); lia
      |exact Hrf|].
    unfold bind at 1. rewrite Hrb.
    rewrite Hp1, firstn_len_app. rewrite Hp1, skipn_len_app in Hp2.
    assert (Hall2 : always_readable w2)
      by (apply (always_readable_later w w2 Hall); congruence).
    destruct (IH fuel (acc ++ [(at_mimetype a, at_payload a)]) fs R pre rest w2
                Hwell' Hfuel' eq_refl Hpre Htext Hall2 Hp2 ltac:(simpl in Hlen; lia))
      as (w' & Hloop & Hp' & Ht').
    exists w'. cbv beta. split; [|split; [exact Hp'|congruence]].
    etransitivity; [exact Hloop|]. cbn [map]. now rewrite <- app_assoc.
Qed.





(** ** Listings *)

Lemma split_free (sep : N) (p : str) : ~ In sep p -> split sep p = [p].
Proof.
  induction p as [|c p IH]; intros Hfree; [reflexivity|].
  simpl. destruct (N.eqb_spec c sep) as [->|Hne]; [now destruct Hfree; left|].
  rewrite IH; [reflexivity|]. intros Hin. apply Hfree. now right.
Qed.

Lemma split_app_sep (sep : N) (p t : str) :
  ~ In sep p -> split sep (p ++ sep :: t) = p :: split sep t.
Proof.
  induction p as [|c p IH]; intros Hfree.
  - simpl. now rewrite N.eqb_refl.
  - simpl. destruct (N.eqb_spec c sep) as [->|Hne]; [now destruct Hfree; left|].
    rewrite IH; [reflexivity|]. intros Hin. apply Hfree. now right.
Qed.

(** Splitting what was joined gives the fields back, when there is a field
    at all and no field holds the separator. *)
Lemma split_join (sep : N) (parts : list str) :
  parts <> [] ->
  Forall (fun t => ~ In sep t) parts ->
  split sep (join sep parts) = parts.
Proof.
  induction parts as [|p parts IH]; intros Hne Hfree; [contradiction|].
  inversion Hfree as [|? ? Hp Hparts]; subst.
  destruct parts as [|q parts]; [now apply split_free|].
  cbn [join]. rewrite split_app_sep by exact Hp.
  f_equal. apply IH; [discriminate|exact Hparts].
Qed.

Lemma slice_tail {A} (c : A) (l : list A) : slice (Some 1) None (c :: l) = l.
Proof.
  unfold slice, norm_index, len. cbn [Z.ltb Z.compare List.length].
  replace (Z.min 1 (Z.of_nat (S (List.length l)))) with 1 by lia.
  replace (Z.to_nat (Z.of_nat (S (List.length l)) - 1)) with (List.length l) by lia.
  cbn [Z.to_nat Pos.to_nat Pos.iter_op Nat.add skipn]. apply firstn_all.
Qed.

Lemma yield_tagged (entries : list (bool * str)) :
  forall w,
    yield_nodes (map tag_entry entries) w
    = (Ret tt, with_yielded (yielded w ++ entries) w).
Proof.
  induction entries as [|[d name] entries IH]; intros w.
  - cbn. rewrite app_nil_r. now destruct w.
  - cbn [map yield_nodes]. unfold bind at 1. destruct d.
    + change (tag_entry (true, name)) with (68%N :: name).
      change (startswith (lit "D") (68%N :: name)) with true. cbv iota.
      rewrite slice_tail. unfold yield, modify. rewrite IH.
      cbn [yielded with_yielded]. now rewrite <- app_assoc.
    + change (tag_entry (false, name)) with (70%N :: name).
      change (startswith (lit "D") (70%N :: name)) with false.
      change (startswith (lit "F") (70%N :: name)) with true. cbv iota.
      rewrite slice_tail. unfold yield, modify. rewrite IH.
      cbn [yielded with_yielded]. now rewrite <- app_assoc.
Qed.

(** The listing format round-trips through the loop of [list_files]: the
    text the device writes for a list of entries, none of whose names holds
    a NUL, is split back into exactly those entries, in order, folders and
    files told apart by the tag; the empty listing gives no entry. *)
Theorem listing_round_trip (entries : list (bool * str)) (w : World) :
  Forall (fun e => ~ In 0%N (snd e)) entries ->
  yield_nodes (split 0 (encode_listing entries)) w
  = (Ret tt, with_yielded (yielded w ++ entries) w).
Proof.
  intros Hfree. unfold encode_listing.
  destruct entries as [|e entries].
  - cbn. rewrite app_nil_r. now destruct w.
  - rewrite split_join; [apply yield_tagged|discriminate|].
    apply Forall_map. eapply Forall_impl; [|exact Hfree].
    intros [d name] Hname [Htag|Hin]; [now destruct d|now apply Hname].
Qed.

Lemma listing_round_trip_witness :
  yield_nodes
    (split 0 (encode_listing [(false, lit "a.gcode"); (true, lit "models"); (false, [])]))
    (incoming [])
  = (Ret tt,
     with_yielded (yielded (incoming [])
                     ++ [(false, lit "a.gcode"); (true, lit "models"); (false, [])])
       (incoming [])).
Proof.
  apply (listing_round_trip [(false, lit "a.gcode"); (true, lit "models"); (false, [])]).
  repeat constructor; vm_compute; intuition discriminate.
Defined.

Section ListingExchange.
Context `{C : Codec}.

(** A complete [list_files] exchange: after "continue", a listing frame and
    a trailing "ok", the generator hands out exactly the entries of the
    listing, in order, and then ends. *)
Theorem list_files_yields_listing
    (entry path : str) (bentry bpath bresp bfiles blast : bytes)
    (entries : list (bool * str)) (w w0 w1 w2 w3 : World) :
  utf8_encode entry = Some bentry ->
  utf8_encode path = Some bpath ->
  _send_cmd (blit "ls " ++ bentry ++ blit " " ++ bpath) w = (Ret tt, w0) ->
  get_resp default_timeout w0 = (Ret bresp, w1) ->
  decode_ascii_ignore bresp = lit "continue" ->
  get_resp default_timeout w1 = (Ret bfiles, w2) ->
  utf8_decode_ignore bfiles = encode_listing entries ->
  Forall (fun e => ~ In 0%N (snd e)) entries ->
  get_resp default_timeout w2 = (Ret blast, w3) ->
  decode_ascii_ignore blast = lit "ok" ->
  list_files entry path w = (Ret tt, with_yielded (yielded w ++ entries) w3).
Proof.
  intros Hentry Hpath Hsend Hresp Hcont Hfiles Hlisting Hfree Hlast Hok.
  unfold list_files. rewrite Hentry, Hpath. run. cbv zeta.
  rewrite Hsend, Hresp, Hcont.
  change (str_eqb (lit "continue") (lit "continue")) with true. cbv beta iota.
  rewrite Hfiles, Hlast, Hok.
  change (str_eqb (lit "ok") (lit "ok")) with true. cbn [negb].
  rewrite Hlisting.
  assert (Hyield : yield_nodes (split 0 (encode_listing entries)) w3
                   = (Ret tt, with_yielded (yielded w3 ++ entries) w3)).
  { unfold encode_listing. destruct entries as [|e entries'].
    - cbn. rewrite app_nil_r. now destruct w3.
    - rewrite split_join; [apply yield_tagged|discriminate|].
      apply Forall_map. eapply Forall_impl; [|exact Hfree].
      intros [d name] Hname [Htag|Hin]; [now destruct d|now apply Hname]. }
  rewrite Hyield.
  pose proof (preserves_send_cmd yielded (blit "ls " ++ bentry ++ blit " " ++ bpath)
                yielded_sock_blind w) as H0.
  pose proof (preserves_get_resp yielded default_timeout yielded_sock_blind w0) as H1.
  pose proof (preserves_get_resp yielded default_timeout yielded_sock_blind w1) as H2.
  pose proof (preserves_get_resp yielded default_timeout yielded_sock_blind w2) as H3.
  rewrite Hsend in H0. rewrite Hresp in H1. rewrite Hfiles in H2. rewrite Hlast in H3.
  simpl in *. do 2 f_equal. congruence.
Qed.

End ListingExchange.

Lemma list_files_yields_listing_witness :
  let w := incoming [[x08; x00] ++ blit "continue";
                     [x10; x00] ++ blit "Fa.gcode" ++ [x00] ++ blit "Dmodels";
                     [x02; x00] ++ blit "ok"] in
  let w0 := snd (_send_cmd (blit "ls SD ") w) in
  let w1 := snd (get_resp default_timeout w0) in
  let w2 := snd (get_resp default_timeout w1) in
  let w3 := snd (get_resp default_timeout w2) in
  @list_files ascii_codec (lit "SD") [] w
  = (Ret tt,
     with_yielded (yielded w ++ [(false, lit "a.gcode"); (true, lit "models")]) w3).
Proof.
  intros w w0 w1 w2 w3.
  apply (@list_files_yields_listing ascii_codec (lit "SD") [] (blit "SD") []
           (blit "continue") (blit "Fa.gcode" ++ [x00] ++ blit "Dmodels") (blit "ok")
           [(false, lit "a.gcode"); (true, lit "models")] w w0 w1 w2 w3).
  - reflexivity.
  - reflexivity.
  - reflexivity.
  - reflexivity.
  - reflexivity.
  - reflexivity.
  - reflexivity.
  - repeat constructor; vm_compute; intuition discriminate.
  - reflexivity.
  - reflexivity.
Defined.

(** ** Leaving raw mode on a stream that ends *)

Lemma recv_at_end (n : Z) (w : World) :
  0 <= n ->
  pending w = [] ->
  exists w', sock_recv n w = (Ret [], w') /\ pending w' = []
             /\ beside_rx w' = beside_rx w.
Proof.
  intros Hn Hp.
  destruct (recv_pending n w Hn) as (k & w' & Hrecv & _ & _ & Hp' & _ & Hb).
  rewrite Hp in Hrecv, Hp'. rewrite firstn_nil in Hrecv. rewrite skipn_nil in Hp'.
  now exists w'.
Qed.

(** Zero bytes up to the end of the stream are all consumed, whatever the
    count so far, and the read at the end of the stream raises
    [TypeError]. *)
Lemma resync_zeros_to_end (j : nat) :
  forall (sync : Z) (w : World),
    pending w = repeat x00 j ->
    exists w',
      pending w' = [] /\ beside_rx w' = beside_rx w
      /\ forall f, resync (j + S f) sync w = (Raise TypeError, w').
Proof.
  induction j as [|j IH]; intros sync w Hp; simpl in Hp.
  - destruct (recv_at_end 1 w ltac:(lia) Hp) as (w' & Hrecv & Hp' & Hb).
    exists w'. split; [exact Hp'|]. split; [exact Hb|]. intros f.
    cbn [Nat.add resync]. run. now rewrite Hrecv.
  - destruct (recv_one x00 (repeat x00 j) w Hp) as (w1 & Hrecv & Hp1 & Hb1).
    destruct (IH sync w1 Hp1) as (wa & Hpa & Hba & Hruna).
    destruct (IH (sync + 1) w1 Hp1) as (wb & Hpb & Hbb & Hrunb).
    destruct (sync >? 8) eqn:Hs.
    + exists wa. split; [exact Hpa|]. split; [congruence|]. intros f.
      cbn [Nat.add resync]. run. rewrite Hrecv. cbn [ord]. rewrite Hs.
      change (byte_to_Z x00 >? 0) with false. cbv iota. apply Hruna.
    + exists wb. split; [exact Hpb|]. split; [congruence|]. intros f.
      cbn [Nat.add resync]. run. rewrite Hrecv. cbn [ord]. rewrite Hs.
      change (byte_to_Z x00 =? 0) with true. cbv iota. apply Hrunb.
Qed.

Section RawModeEnds.
Context `{C : Codec}.

(** When the stream ends before resynchronization is complete, because it
    holds at most 8 zero bytes, or because only zero bytes follow those, up
    to its end, [quit_raw_mode] has written ["quit"], eats the whole stream
    and raises [TypeError] on the read at its end. *)
Theorem quit_raw_mode_stream_ends (p : bytes) (j fuel : nat) (w : World) :
  (zeros p <= 8)%nat ->
  pending w = p ++ repeat x00 j ->
  (List.length p + j < fuel)%nat ->
  exists w',
    quit_raw_mode fuel w = (Raise TypeError, w')
    /\ pending w' = []
    /\ tx (sock w') = tx (sock w) ++ [blit "quit"].
Proof.
  intros Hz Hp Hfuel.
  set (w0 := with_sock (fun s => mkSocket (rx s) (tx s ++ [blit "quit"]) (ready s) (asked s)) w).
  destruct (resync_skip p _ 0 w0 ltac:(lia) Hp) as (w1 & Hp1 & Hb1 & Hrun1).
  destruct (resync_zeros_to_end j (0 + Z.of_nat (zeros p)) w1 Hp1)
    as (w2 & Hp2 & Hb2 & Hrun2).
  exists w2. split; [|split; [exact Hp2|]].
  - unfold quit_raw_mode, ok_or_error, sock_send. run. fold w0.
    replace fuel with (List.length p + (j + S (fuel - List.length p - j - 1)))%nat by lia.
    now rewrite Hrun1, Hrun2.
  - unfold beside_rx in Hb1, Hb2. injection Hb1 as Ht1 _ _ _ _ _ _.
    injection Hb2 as Ht2 _ _ _ _ _ _. now rewrite Ht2, Ht1.
Qed.

End RawModeEnds.

Lemma quit_raw_mode_stream_ends_witness :
  exists w',
    @quit_raw_mode ascii_codec 20 (incoming [blit "abc" ++ repeat x00 12])
    = (Raise TypeError, w')
    /\ pending w' = []
    /\ tx (sock w') = tx (sock (incoming [blit "abc" ++ repeat x00 12])) ++ [blit "quit"].
Proof.
  apply (@quit_raw_mode_stream_ends ascii_codec (blit "abc") 12 20).
  - vm_compute. lia.
  - reflexivity.
  - simpl. lia.
Defined.

Lemma settles_bind {A B} (m : M World A) (k : A -> M World B) :
  settles m -> (forall a, settles (k a)) -> settles (bind m k).
Proof.
  intros Hm Hk w. unfold bind. specialize (Hm w).
  destruct (m w) as [[a|e|] w1]; simpl in *; [apply Hk|discriminate|contradiction].
Qed.

Lemma settles_recv_with take (n : Z) : settles (recv_with take n).
Proof.
  intros w. unfold recv_with. destruct (n <? 0); [discriminate|].
  destruct (take (Z.to_nat n) (rx (sock w))). discriminate.
Qed.

Lemma settles_get_resp (timeout : Z) : settles (get_resp timeout).
Proof.
  unfold get_resp. apply settles_bind.
  - intros w. unfold select_readable. destruct (ready (sock w)); discriminate.
  - intros [|]; cbn [negb]; [|intros w; discriminate].
    apply settles_bind; [apply settles_recv_with|].
    intros [|c bml]; [intros w; discriminate|].
    apply settles_bind; [|intros l; apply settles_recv_with].
    intros w. unfold orraise. destruct (unpack_H (c :: bml)); discriminate.
Qed.

(** On a stream that ends, the loop of [quit_raw_mode] ends too: with more
    fuel than bytes to come it returns or raises. *)
Lemma resync_settles (fuel : nat) :
  forall (sync : Z) (w : World),
    (List.length (pending w) < fuel)%nat ->
    fst (resync fuel sync w) <> Diverge.
Proof.
  induction fuel as [|fuel IH]; intros sync w Hfuel; [lia|].
  cbn [resync]. run.
  destruct (pending w) as [|c rest] eqn:Hp.
  - destruct (recv_at_end 1 w ltac:(lia) Hp) as (w' & Hrecv & _).
    rewrite Hrecv. discriminate.
  - destruct (recv_one c rest w Hp) as (w' & Hrecv & Hp' & _).
    rewrite Hrecv. cbn [ord].
    assert (Hlen : (List.length (pending w') < fuel)%nat)
      by (rewrite Hp'; simpl in Hfuel; lia).
    destruct (sync >? 8).
    + destruct (byte_to_Z c >? 0); [discriminate|now apply IH].
    + destruct (byte_to_Z c =? 0); now apply IH.
Qed.

Section RawModeSettles.
Context `{C : Codec}.

(** Unlike [recv_binary], [quit_raw_mode] cannot spin on a closed
    connection: with more fuel than bytes to come, its [while True] loop has
    ended and the call has returned or raised. *)
Theorem quit_raw_mode_settles (fuel : nat) (w : World) :
  (List.length (pending w) < fuel)%nat ->
  fst (quit_raw_mode fuel w) <> Diverge.
Proof.
  intros Hfuel. unfold quit_raw_mode, ok_or_error, sock_send. run.
  set (w0 := with_sock _ w).
  pose proof (resync_settles fuel 0 w0 Hfuel) as Hres.
  destruct (resync fuel 0 w0) as [[[]|e|] w1]; simpl in Hres;
    [|discriminate|contradiction].
  pose proof (settles_get_resp default_timeout w1) as Hget.
  destruct (get_resp default_timeout w1) as [[b|e|] w2]; simpl in Hget;
    [|discriminate|contradiction].
  destruct (str_eqb (utf8_decode_ignore b) (lit "ok")); discriminate.
Qed.

End RawModeSettles.

Lemma quit_raw_mode_settles_witness :
  fst (@quit_raw_mode ascii_codec 13 (incoming [repeat x00 9; [x01; x02; x00]]))
  <> Diverge.
Proof.
  apply (@quit_raw_mode_settles ascii_codec 13).
  simpl. lia.
Defined.

(** ** Uploads that go through *)


(** A read that finds a nonempty result in front: what it returns and what
    it leaves, byte for byte. *)
Lemma stream_read_front (c : bytes) (pre tail : list bytes) (w : World) :
  c <> [] ->
  source w = (c :: pre) ++ tail ->
  exists buf w1 pre1,
    stream_read 4096 w = (Ret buf, w1)
    /\ 0 < len buf <= 4096
    /\ source w1 = pre1 ++ tail
    /\ total pre1 = total (c :: pre) - len buf
    /\ (Forall (fun x => x <> []) pre -> Forall (fun x => x <> []) pre1)
    /\ sock w1 = sock w
    /\ progress w1 = progress w
    /\ buf ++ List.concat (source w1) = List.concat (source w).
Proof.
  intros Hc Hsrc. pose proof (len_pos c Hc) as Hpos.
  unfold stream_read. rewrite Hsrc. cbn [app].
  destruct (Z.leb_spec (len c) 4096) as [Hle|Hgt].
  - exists c, (with_source (pre ++ tail) w), pre.
    rewrite total_cons. repeat split; auto; lia.
  - assert (Hl : (Z.to_nat 4096 <= List.length c)%nat) by (unfold len in Hgt; lia).
    exists (firstn (Z.to_nat 4096) c),
           (with_source (skipn (Z.to_nat 4096) c :: pre ++ tail) w),
           (skipn (Z.to_nat 4096) c :: pre).
    rewrite (len_firstn_le _ _ Hl), !total_cons, (len_skipn _ _ Hl).
    repeat split; auto; try lia.
    + intros Hpre. constructor; [|exact Hpre].
      intros Heq. apply (f_equal (@List.length byte)) in Heq.
      rewrite length_skipn in Heq. unfold len in Hgt. simpl in Heq. lia.
    + cbn [source with_source List.concat]. now rewrite app_assoc, firstn_skipn.
Qed.

(** The throttled report of the recording callback: the clock is read, and
    the pair [(sent, length)] is recorded or not. *)
Lemma throttled_recording (sent length ts : Z) (w : World) :
  exists ts' w' (reported : bool),
    throttled_progress (Some record_progress) sent length ts w = (Ret ts', w')
    /\ sock w' = sock w
    /\ source w' = source w
    /\ progress w' = progress w ++ (if reported then [(sent, length)] else []).
Proof.
  unfold throttled_progress, record_progress, time, modify. run.
  destruct (clock w) as [|t ts0] eqn:Hclock.
  - destruct (0 - ts >? 1000).
    + rewrite Hclock. now exists 0, (with_progress (progress w ++ [(sent, length)]) w), true.
    + exists ts, w, false. now rewrite app_nil_r.
  - destruct (t - ts >? 1000).
    + cbn [clock with_clock]. destruct ts0 as [|t1 ts1]; eexists _, _, true; now cbn.
    + exists ts, (with_clock ts0 w), false. cbn. now rewrite app_nil_r.
Qed.

(** The send loop with the recording callback, on a source that supplies
    the declared length. *)
Lemma upload_loop_recording (length : Z) (fuel : nat) :
  forall (sent ts : Z) (pre rest : list bytes) (w : World),
    Forall (fun x => x <> []) pre ->
    source w = pre ++ rest ->
    length <= sent + total pre ->
    (Z.to_nat (length - sent) <= fuel)%nat ->
    exists sent' w' chunks reports,
      upload_loop fuel length sent ts (Some record_progress) w = (Ret sent', w')
      /\ length <= sent'
      /\ (sent < length -> sent' < length + 4096)
      /\ sent' = sent + len (List.concat chunks)
      /\ tx (sock w') = tx (sock w) ++ chunks
      /\ Forall (fun c => 0 < len c <= 4096) chunks
      /\ List.concat chunks ++ List.concat (source w') = List.concat (source w)
      /\ progress w' = progress w ++ map (fun s => (s, length)) reports
      /\ StronglySorted Z.lt reports
      /\ Forall (fun s => sent < s <= sent') reports
      /\ reads w' = reads w.
Proof.
  induction fuel as [|fuel IH]; intros sent ts pre rest w Hpre Hsrc Htot Hfuel;
    cbn [upload_loop]; destruct (Z.ltb_spec sent length) as [Hlt|Hge];
    try (exfalso; lia);
    try (exists sent, w, [], []; cbn [List.concat map app]; rewrite !app_nil_r;
         change (len (@nil byte)) with 0;
         split; [reflexivity|]; split; [lia|]; split; [lia|]; split; [lia|];
         split; [reflexivity|]; split; [constructor|]; split; [reflexivity|];
         split; [reflexivity|]; split; [constructor|]; split; [constructor|];
         reflexivity).
  destruct pre as [|c pre];
    [unfold total in Htot; simpl in Htot; unfold len in Htot; simpl in Htot; lia|].
  inversion Hpre as [|? ? Hc Hpre']; subst.
  destruct (stream_read_front c pre rest w Hc Hsrc)
    as (buf & w1 & pre1 & Hread & Hlen & Hsrc1 & Htot1 & Hne1 & Hsock1 & Hprog1 & Hcat1).
  run. rewrite Hread. cbv zeta.
  replace (len buf =? 0) with false by (symmetry; apply Z.eqb_neq; lia).
  unfold sock_send. run.
  match goal with
  | |- context [throttled_progress _ ?s ?l ?t ?x] =>
      destruct (throttled_recording s l t x) as (ts' & w2 & reported & Hcall & Hsock2 & Hsrc2 & Hprog2)
  end.
  rewrite Hcall.
  destruct (IH (sent + len buf) ts' pre1 rest w2)
    as (sent' & w' & chunks & reports & Hloop & Hsent & Hbound & Hsum & Htx & Hchunks
        & Hcat & Hprog & Hsorted & Hrange & Hreads);
    auto; try lia; [rewrite Hsrc2; exact Hsrc1|].
  exists sent', w', (buf :: chunks),
    ((if reported then [sent + len buf] else []) ++ reports).
  rewrite Hloop. split; [reflexivity|]. split; [exact Hsent|].
  split.
  { intros _. destruct (Z.ltb_spec (sent + len buf) length) as [Hlt'|Hge'];
      [now apply Hbound|].
    assert (len (List.concat chunks) = 0 \/ sent + len buf < length) as [Hz|Hz'];
      [|lia|lia].
    left. clear - Hloop Hge' Hsum.
    destruct fuel; cbn [upload_loop] in Hloop;
      replace (sent + len buf <? length) with false in Hloop
        by (symmetry; apply Z.ltb_ge; lia);
      injection Hloop as Hs _; lia. }
  split; [cbn [List.concat]; rewrite len_app; lia|].
  split; [rewrite Htx, Hsock2; cbn; now rewrite Hsock1, <- app_assoc|].
  split; [constructor; [lia|exact Hchunks]|].
  split; [cbn [List.concat]; rewrite <- app_assoc, Hcat, Hsrc2; exact Hcat1|].
  split.
  { rewrite Hprog, Hprog2. cbn. rewrite Hprog1, map_app, <- !app_assoc.
    now destruct reported. }
  split.
  { destruct reported; [|exact Hsorted]. cbn [app]. constructor; [exact Hsorted|].
    eapply Forall_impl; [|exact Hrange]. cbv beta. intros s Hs. lia. }
  split.
  { apply Forall_app. split.
    - pose proof (len_nonneg (List.concat chunks)).
      destruct reported; [constructor; [lia|constructor]|constructor].
    - eapply Forall_impl; [|exact Hrange]. cbv beta. intros s Hs. lia. }
  rewrite Hreads. unfold reads. rewrite Hsock2. cbn [sock with_sock rx ready asked].
  now rewrite Hsock1.
Qed.

Lemma progress_sock_blind : sock_blind progress.
Proof. now intros g w. Qed.

Section UploadThrough.
Context `{C : Codec}.

(** A whole upload with the recording callback: negotiation, send loop,
    last report and the final "ok". *)
Lemma upload_stream_recorded
    (fuel : nat) (length : Z) (mimetype upload_to cmd : str)
    (bcmd bret rest : bytes) (pre more : list bytes) (w w1 : World) :
  utf8_encode (cmd ++ lit " " ++ mimetype ++ lit " " ++ str_of_int length
                   ++ lit " " ++ upload_to) = Some bcmd ->
  _make_cmd bcmd w = (Ret bret, w1) ->
  decode_ascii_ignore bret = lit "continue" ->
  source w = pre ++ more ->
  Forall (fun x => x <> []) pre ->
  length <= total pre ->
  (Z.to_nat length <= fuel)%nat ->
  readable w1 ->
  pending w1 = [x02; x00] ++ blit "ok" ++ rest ->
  exists w' sent chunks reports left,
    upload_stream fuel length mimetype upload_to cmd (Some record_progress) w
    = (Ret tt, w')
    /\ length <= sent
    /\ (0 < length -> sent < length + 4096)
    /\ sent = len (List.concat chunks)
    /\ tx (sock w') = tx (sock w1) ++ chunks
    /\ Forall (fun c => 0 < len c <= 4096) chunks
    /\ List.concat chunks ++ left = List.concat (source w)
    /\ progress w' = progress w ++ map (fun s => (s, length)) (reports ++ [sent])
    /\ StronglySorted Z.lt reports
    /\ Forall (fun s => 0 < s <= sent) reports
    /\ pending w' = rest.
Proof.
  intros Henc Hmake Hdec Hsrc Hpre Htot Hfuel Hr Hp.
  unfold upload_stream. cbv zeta. rewrite Henc. run. rewrite Hmake, Hdec.
  change (str_eqb (lit "continue") (lit "continue")) with true.
  cbn [negb]. unfold logf. run.
  match goal with
  | |- context [upload_loop fuel length 0 0 _ ?x] => set (w2 := x)
  end.
  pose proof (preserves_make_cmd source bcmd source_sock_blind w) as Hks.
  pose proof (preserves_make_cmd progress bcmd progress_sock_blind w) as Hkp.
  rewrite Hmake in Hks, Hkp. simpl in Hks, Hkp.
  assert (Hsrc2 : source w2 = pre ++ more) by (subst w2; cbn; congruence).
  destruct (upload_loop_recording length fuel 0 0 pre more w2 Hpre Hsrc2)
    as (sent & w3 & chunks & reports & Hloop & Hsent & Hbound & Hsum & Htx & Hchunks
        & Hcat & Hprog & Hsorted & Hrange & Hreads);
    [lia|rewrite Z.sub_0_r; exact Hfuel|].
  rewrite Hloop. unfold record_progress. run. cbv beta.
  match goal with
  | |- context [get_resp default_timeout ?x] => set (w4 := x)
  end.
  unfold reads in Hreads. injection Hreads as Hrx Hrd _.
  assert (Hr4 : readable w4) by (unfold readable; subst w4; cbn; now rewrite Hrd).
  assert (Hp4 : pending w4 = [x02; x00] ++ blit "ok" ++ rest)
    by (unfold pending; subst w4; cbn; rewrite Hrx; exact Hp).
  destruct (get_resp_frame default_timeout w4 [x02; x00] (blit "ok") rest eq_refl Hr4 Hp4)
    as (w5 & Hg & Hp5 & Ht5 & _ & Hrest5).
  rewrite Hg. cbn [bytes_eqb blit list_byte_of_string Byte.eqb negb andb].
  injection Hrest5 as _ _ Hprog5 _ _.
  eexists _, sent, chunks, reports, (List.concat (source w3)).
  split; [reflexivity|]. split; [exact Hsent|]. split; [exact Hbound|].
  split; [lia|].
  split; [cbn; rewrite Ht5; subst w4; cbn; rewrite Htx; reflexivity|].
  split; [exact Hchunks|].
  split; [rewrite Hcat, Hsrc2, <- Hsrc; reflexivity|].
  split.
  { cbn. rewrite Hprog5. subst w4. cbn. rewrite Hprog. subst w2. cbn.
    rewrite Hkp, map_app, <- app_assoc. reflexivity. }
  split; [exact Hsorted|]. split; [exact Hrange|].
  cbn. exact Hp5.
Qed.



End UploadThrough.



(** The reports of that upload, computed: one during the loop, the clock
    having passed the first second, and the last one. *)
Example upload_stream_progress_computed :
  progress
    (snd (@upload_stream ascii_codec 16 9 (lit "text/gcode") (lit "#") (lit "upload")
            (Some record_progress)
            (with_clock [5000; 5001; 5002]
               (with_source [blit "G28"; blit "G1 X10"]
                  (incoming [[x08; x00] ++ blit "continue"; [x02; x00] ++ blit "ok"])))))
  = [(3, 9); (9, 9)].
Proof. reflexivity. Qed.

(** ** Discovery replies *)

Lemma bsplit1_at_sep (sep : byte) (p s : bytes) :
  ~ In sep p -> bsplit1 sep (p ++ sep :: s) = [p; s].
Proof.
  induction p as [|c p IH]; intros Hfree.
  - simpl. destruct (Byte.eqb sep sep) eqn:He; [reflexivity|].
    now apply Byte.eqb_false in He.
  - simpl. destruct (Byte.eqb c sep) eqn:Hc.
    + apply Byte.byte_dec_bl in Hc. subst c. now destruct Hfree; left.
    + rewrite IH; [reflexivity|]. intros Hin. apply Hfree. now right.
Qed.

Lemma bsplit1_with_sep (sep : byte) (b : bytes) :
  In sep b -> exists p s, bsplit1 sep b = [p; s].
Proof.
  induction b as [|c b IH]; intros Hin; [destruct Hin|].
  simpl. destruct (Byte.eqb c sep) eqn:Hc; [now exists [], b|].
  destruct Hin as [->|Hin]; [now apply Byte.eqb_false in Hc|].
  destruct (IH Hin) as (p & s & ->). now exists (c :: p), s.
Qed.

Lemma slice_from_2 {A} (a b : A) (l : list A) : slice (Some 2) None (a :: b :: l) = l.
Proof.
  unfold slice, norm_index, len. cbn [Z.ltb Z.compare List.length].
  replace (Z.min 2 (Z.of_nat (S (S (List.length l))))) with 2 by lia.
  replace (Z.to_nat (Z.of_nat (S (S (List.length l))) - 2)) with (List.length l) by lia.
  cbn [Z.to_nat Pos.to_nat Pos.iter_op Nat.add skipn]. apply firstn_all.
Qed.

Lemma slice_to_2 {A} (a b : A) (l : list A) : slice None (Some 2) (a :: b :: l) = [a; b].
Proof.
  unfold slice, norm_index, len. cbn [Z.ltb Z.compare List.length].
  replace (Z.min 2 (Z.of_nat (S (S (List.length l))))) with 2 by lia.
  reflexivity.
Qed.

Lemma pack_s_exact (n : nat) (b : bytes) : List.length b = n -> pack_s n b = b.
Proof.
  intros <-. unfold pack_s.
  rewrite firstn_app, Nat.sub_diag, firstn_O, app_nil_r. apply firstn_all.
Qed.

Section DiscoveryReplies.
Context `{E : Encryptor}.
Variables CODE_RSA_KEY CODE_RESPONSE_RSA_KEY : Z.

#[local] Abbreviation parse := (Upnp._parse_response CODE_RESPONSE_RSA_KEY).
#[local] Abbreviation wait := (Upnp.await CODE_RESPONSE_RSA_KEY).
#[local] Abbreviation request := (Upnp.make_request CODE_RESPONSE_RSA_KEY).
#[local] Abbreviation fetch := (Upnp.fetch_publickey CODE_RSA_KEY CODE_RESPONSE_RSA_KEY).
#[local] Abbreviation fetch_from :=
  (Upnp.fetch_publickey_from CODE_RSA_KEY CODE_RESPONSE_RSA_KEY).

(** The reply format parses back: a datagram made of the expected code, a
    zero status, a NUL-free payload, a NUL and a signature (which may hold
    NULs) gives the decoded payload exactly when the signature verifies, and
    nothing otherwise.  The key used is the one the payload carries for the
    key-fetch code, and the remote key of the client for every other
    code. *)
Theorem parse_response_reply
    (self : UpnpBase) (resp_code : Z) (payload signature : bytes)
    (text : str) (resp : json) (remote : keyobj) :
  0 <= resp_code <= 255 ->
  ~ In x00 payload ->
  utf8_decode payload = Some text ->
  json_loads text = Some resp ->
  (if resp_code =? CODE_RESPONSE_RSA_KEY
   then load_keyobj resp else remote_keyobj self) = Some remote ->
  parse self ([byte_of_Z resp_code; x00] ++ payload ++ [x00] ++ signature) resp_code
  = Ret (if validate_signature remote payload signature then Some resp else None).
Proof.
  intros Hcode Hfree Htext Hjson Hkey. unfold Upnp._parse_response.
  cbn [app]. rewrite slice_from_2, slice_to_2, bsplit1_at_sep by exact Hfree.
  cbn [unpack_BB]. rewrite byte_to_of_Z by exact Hcode.
  rewrite Z.eqb_refl. cbn [negb]. change (byte_to_Z x00 =? 0) with true. cbn [negb].
  rewrite Htext, Hjson.
  destruct (resp_code =? CODE_RESPONSE_RSA_KEY); rewrite Hkey;
    now destruct (validate_signature remote payload signature).
Qed.

(** A reply with the expected code and a status that is not zero raises
    the payload text as a failure, whatever follows the payload: the
    signature is not looked at, so the failure is not authenticated. *)
Theorem parse_response_error_status
    (self : UpnpBase) (resp_code : Z) (status : byte) (payload signature : bytes)
    (msg : str) :
  0 <= resp_code <= 255 ->
  status <> x00 ->
  ~ In x00 payload ->
  utf8_decode payload = Some msg ->
  parse self ([byte_of_Z resp_code; status] ++ payload ++ [x00] ++ signature) resp_code
  = Raise (RuntimeError [msg]).
Proof.
  intros Hcode Hstatus Hfree Hmsg. unfold Upnp._parse_response.
  cbn [app]. rewrite slice_from_2, slice_to_2, bsplit1_at_sep by exact Hfree.
  cbn [unpack_BB]. rewrite byte_to_of_Z by exact Hcode.
  rewrite Z.eqb_refl. cbn [negb].
  replace (byte_to_Z status =? 0) with false
    by (symmetry; apply Z.eqb_neq; now rewrite byte_to_Z_zero).
  cbn [negb]. now rewrite Hmsg.
Qed.

(** Replies to other requests are passed over: datagrams that carry another
    response code, and a NUL after their two leading bytes, change nothing
    to what the wait loop of [make_request] does with the events that
    follow, whatever their status, payload and signature. *)
Theorem await_ignores_other_codes
    (self : UpnpBase) (resp_code : Z) (others : list bytes) (events : list event) :
  Forall (other_code resp_code) others ->
  wait self resp_code (map Datagram others ++ events) = wait self resp_code events.
Proof.
  induction 1 as [|d others (c & st & body & Hd & Hnul & Hc) _ IH]; [reflexivity|].
  cbn [map app Upnp.await].
  assert (Hparse : parse self (firstn 1024 d) resp_code = Ret None).
  { unfold Upnp._parse_response. rewrite Hd, slice_from_2, slice_to_2.
    destruct (bsplit1_with_sep x00 body Hnul) as (p & s & ->).
    cbn [unpack_BB].
    replace (byte_to_Z c =? resp_code) with false by (symmetry; now apply Z.eqb_neq).
    reflexivity. }
  rewrite Hparse. exact IH.
Qed.

(** A request that nothing answers: exactly one datagram goes out, made of
    the magic ["FLUX"], the 16-byte serial, the request code and the
    message, which is encrypted for the remote key only when it is not
    empty and encryption is asked for; the call returns nothing once the
    wait times out. *)
Theorem make_request_times_out
    (self : UpnpBase) (req_code resp_code : Z) (message : bytes) (encrypt : bool)
    (k : keyobj) (net : Net) :
  0 <= req_code <= 255 ->
  List.length (serial self) = 16%nat ->
  remote_keyobj self = Some k ->
  hd Silence (inbox net) = Silence ->
  request self req_code resp_code message encrypt net
  = (Ret None,
     mkNet (tl (inbox net))
       (outbox net
          ++ [blit "FLUX" ++ serial self ++ [byte_of_Z req_code]
                ++ match message with
                   | [] => []
                   | _ => if encrypt then rsa_encrypt k message else message
                   end])).
Proof.
  intros Hcode Hserial Hkey Hsilence.
  unfold Upnp.make_request, pack_header, sendto.
  replace ((0 <=? req_code) && (req_code <=? 255)) with true
    by (symmetry; apply andb_true_iff; lia).
  rewrite (pack_s_exact 16 _ Hserial), Hkey.
  assert (Hwait : wait self resp_code (inbox net) = (Ret None, tl (inbox net))).
  { destruct (inbox net) as [|[d|] rest]; [reflexivity|discriminate|reflexivity]. }
  destruct message as [|m message]; [|destruct encrypt];
    run; cbn [inbox outbox]; rewrite Hwait, <- !app_assoc; reflexivity.
Qed.

(** A key fetch does not retry on a malformed reply: when the first
    datagram has no NUL after its two leading bytes, [fetch_publickey]
    raises [ValueError] after a single request, however many retries it was
    given. *)
Theorem fetch_publickey_aborts_on_malformed_reply
    (self : UpnpBase) (retry : Z) (net : Net) (d : bytes) (rest : list event) :
  0 <= CODE_RSA_KEY <= 255 ->
  inbox net = Datagram d :: rest ->
  ~ In x00 (slice (Some 2) None (firstn 1024 d)) ->
  exists datagram,
    fetch self retry net = (Raise ValueError, mkNet rest (outbox net ++ [datagram])).
Proof.
  intros Hcode Hin Hnul.
  assert (Hparse : parse self (firstn 1024 d) CODE_RESPONSE_RSA_KEY = Raise ValueError).
  { unfold Upnp._parse_response. now rewrite bsplit1_without_sep. }
  unfold Upnp.fetch_publickey.
  assert (Hreq : exists datagram,
             request self CODE_RSA_KEY CODE_RESPONSE_RSA_KEY [] true net
             = (Raise ValueError, mkNet rest (outbox net ++ [datagram]))).
  { unfold Upnp.make_request, pack_header, sendto.
    replace ((0 <=? CODE_RSA_KEY) && (CODE_RSA_KEY <=? 255)) with true
      by (symmetry; apply andb_true_iff; lia).
    run. cbn [inbox outbox]. rewrite Hin. cbn [Upnp.await]. rewrite Hparse.
    now eexists. }
  destruct Hreq as (datagram & Hreq). exists datagram.
  destruct (Z.to_nat retry); cbn [Upnp.fetch_publickey_from]; unfold bind at 1;
    now rewrite Hreq.
Qed.

Lemma key_request_sends_at_most_one (self : UpnpBase) (net : Net) :
  (List.length (outbox (snd (Upnp.key_request CODE_RSA_KEY CODE_RESPONSE_RSA_KEY self net)))
   <= S (List.length (outbox net)))%nat.
Proof.
  unfold Upnp.key_request, Upnp.make_request, sendto. run.
  destruct (pack_header (serial self) CODE_RSA_KEY) as [header|]; cbn [snd]; [|lia].
  cbn [inbox outbox].
  destruct (wait self CODE_RESPONSE_RSA_KEY (inbox net)) as [o r].
  cbn [snd outbox]. rewrite length_app. simpl. lia.
Qed.

(** Whatever the replies, and however the call ends, [fetch_publickey]
    sends at most [retry + 1] requests (one, for a [retry] below zero). *)
Theorem fetch_publickey_request_bound (self : UpnpBase) (retry : Z) (net : Net) :
  (List.length (outbox (snd (fetch self retry net)))
   <= List.length (outbox net) + Z.to_nat retry + 1)%nat.
Proof.
  unfold Upnp.fetch_publickey. generalize (Z.to_nat retry) as n. intros n.
  revert net. induction n as [|n IH]; intros net;
    cbn [Upnp.fetch_publickey_from]; unfold bind at 1;
    pose proof (key_request_sends_at_most_one self net) as Hone;
    unfold Upnp.key_request in Hone;
    destruct (request self CODE_RSA_KEY CODE_RESPONSE_RSA_KEY [] true net)
      as [[[key|]|e|] net1]; unfold ret, raise; cbn [snd] in Hone |- *; try lia.
  - destruct (json_truthy key); cbn [snd]; lia.
  - destruct (json_truthy key); cbn [snd]; [lia|].
    specialize (IH net1). lia.
  - specialize (IH net1). lia.
Qed.

End DiscoveryReplies.

Lemma parse_response_reply_witness :
  let self := @mkUpnpBase ascii_codec toy_encryptor (repeat x11 16) None in
  @Upnp._parse_response ascii_codec toy_encryptor 7 self
    ([byte_of_Z 7; x00] ++ blit "KEY" ++ [x00] ++ blit "KEYKEY") 7
  = Ret (if @validate_signature ascii_codec toy_encryptor (blit "KEY") (blit "KEY")
              (blit "KEYKEY")
         then Some (lit "KEY") else None).
Proof.
  intros self.
  apply (@parse_response_reply ascii_codec toy_encryptor 7 self 7 (blit "KEY")
           (blit "KEYKEY") (lit "KEY") (lit "KEY") (blit "KEY")).
  - lia.
  - vm_compute. intuition discriminate.
  - reflexivity.
  - reflexivity.
  - reflexivity.
Defined.

Lemma parse_response_error_status_witness :
  let self := @mkUpnpBase ascii_codec toy_encryptor (repeat x11 16) None in
  @Upnp._parse_response ascii_codec toy_encryptor 7 self
    ([byte_of_Z 7; x01] ++ blit "BAD_PARAMS" ++ [x00] ++ blit "forged") 7
  = Raise (RuntimeError [lit "BAD_PARAMS"]).
Proof.
  intros self.
  apply (@parse_response_error_status ascii_codec toy_encryptor 7 self 7 x01
           (blit "BAD_PARAMS") (blit "forged") (lit "BAD_PARAMS")).
  - lia.
  - discriminate.
  - vm_compute. intuition discriminate.
  - reflexivity.
Defined.

Lemma await_ignores_other_codes_witness :
  let self := @mkUpnpBase ascii_codec toy_encryptor (repeat x11 16) None in
  @Upnp.await ascii_codec toy_encryptor 7 self 7
    (map Datagram [[x09; x01] ++ blit "x" ++ [x00]; [x03; x00; x00]] ++ [Silence])
  = @Upnp.await ascii_codec toy_encryptor 7 self 7 [Silence].
Proof.
  intros self.
  apply (@await_ignores_other_codes ascii_codec toy_encryptor 7 self 7
           [[x09; x01] ++ blit "x" ++ [x00]; [x03; x00; x00]] [Silence]).
  repeat constructor.
  - exists x09, x01, (blit "x" ++ [x00]). repeat split.
    + vm_compute. intuition.
    + vm_compute. discriminate.
  - exists x03, x00, [x00]. repeat split.
    + vm_compute. intuition.
    + vm_compute. discriminate.
Defined.

Lemma make_request_times_out_witness :
  let self := @mkUpnpBase ascii_codec toy_encryptor (repeat x11 16) (Some (blit "KEY")) in
  let net := mkNet [Silence; Datagram [x07]] [] in
  @Upnp.make_request ascii_codec toy_encryptor 7 self 4 5 (blit "hello") true net
  = (Ret None,
     mkNet (tl (inbox net))
       (outbox net
          ++ [blit "FLUX" ++ serial self ++ [byte_of_Z 4]
                ++ match blit "hello" with
                   | [] => []
                   | _ => if true
                          then @rsa_encrypt ascii_codec toy_encryptor (blit "KEY") (blit "hello")
                          else blit "hello"
                   end])).
Proof.
  intros self net.
  apply (@make_request_times_out ascii_codec toy_encryptor 7 self 4 5 (blit "hello")
           true (blit "KEY") net).
  - lia.
  - reflexivity.
  - reflexivity.
  - reflexivity.
Defined.

Lemma fetch_publickey_aborts_on_malformed_reply_witness :
  let self := @mkUpnpBase ascii_codec toy_encryptor (repeat x11 16) None in
  let net := mkNet [Datagram ([x07; x00] ++ blit "KEY"); Silence] [] in
  exists datagram,
    @Upnp.fetch_publickey ascii_codec toy_encryptor 6 7 self 20 net
    = (Raise ValueError, mkNet [Silence] (outbox net ++ [datagram])).
Proof.
  intros self net.
  apply (@fetch_publickey_aborts_on_malformed_reply ascii_codec toy_encryptor 6 7
           self 20 net ([x07; x00] ++ blit "KEY") [Silence]).
  - lia.
  - reflexivity.
  - vm_compute. intuition discriminate.
Defined.

(** ** File information *)

Lemma bind_ret_inv {S A B} (m : M S A) (k : A -> M S B) (s s' : S) (b : B) :
  bind m k s = (Ret b, s') ->
  exists a s1, m s = (Ret a, s1) /\ k a s1 = (Ret b, s').
Proof.
  unfold bind. destruct (m s) as [[a|e|] s1]; try discriminate.
  intros Hk. now exists a, s1.
Qed.

Lemma dict_set_nonempty (k v : str) (d : dict) : dict_set k v d <> [].
Proof.
  destruct d as [|[k' v'] d]; simpl; [discriminate|].
  destruct (str_eqb k k'); discriminate.
Qed.

Lemma dict_update_nonempty (items : list (list str)) :
  forall d0 d, d0 <> [] -> dict_update items d0 = Some d -> d <> [].
Proof.
  induction items as [|item items IH]; intros d0 d Hd0; cbn [dict_update].
  - now intros [= <-].
  - destruct item as [|k [|v [|x item]]]; try discriminate.
    apply IH, dict_set_nonempty.
Qed.

Section FileInfo.
Context `{C : Codec}.

(** [fileinfo] never returns empty metadata: a response "ok " with nothing
    behind it has one item that is no [key=value] pair, which is a
    [ValueError], so whenever the call returns, the metadata holds at least
    one key. *)
Theorem fileinfo_metadata_nonempty
    (fuel : nat) (entry path : str) (w w' : World)
    (meta : dict) (blob : option (str * bytes)) :
  fileinfo fuel entry path w = (Ret (meta, blob), w') ->
  meta <> [].
Proof.
  unfold fileinfo. intros Hrun.
  apply bind_ret_inv in Hrun. destruct Hrun as (bentry & s1 & _ & Hrun).
  apply bind_ret_inv in Hrun. destruct Hrun as (bpath & s2 & _ & Hrun).
  apply bind_ret_inv in Hrun. destruct Hrun as ([] & s3 & _ & Hrun).
  apply bind_ret_inv in Hrun. destruct Hrun as (b & s4 & _ & Hrun).
  cbv zeta in Hrun.
  apply bind_ret_inv in Hrun. destruct Hrun as (after & s5 & _ & Hrun).
  destruct (startswith (lit "ok ") (fst after)); [|discriminate].
  apply bind_ret_inv in Hrun. destruct Hrun as (d & s6 & Hdict & Hret).
  injection Hret as <- _ _.
  unfold orraise in Hdict.
  destruct (dict_update (map (split1 61) (split 0 (slice (Some 3) None (fst after)))) [])
    as [d'|] eqn:Hd; [|discriminate].
  injection Hdict as <- _.
  destruct (split 0 (slice (Some 3) None (fst after))) as [|item items] eqn:Hs;
    [now destruct (split_nonempty 0 (slice (Some 3) None (fst after)))|].
  cbn [map dict_update] in Hd.
  destruct (split1 61 item) as [|k [|v [|x l]]]; try discriminate.
  eapply dict_update_nonempty; [|exact Hd]. apply dict_set_nonempty.
Qed.

Lemma split1_at_sep (sep : N) (k v : str) :
  ~ In sep k -> split1 sep (k ++ sep :: v) = [k; v].
Proof.
  induction k as [|c k IH]; intros Hfree.
  - simpl. now rewrite N.eqb_refl.
  - simpl. destruct (N.eqb_spec c sep) as [->|Hne]; [now destruct Hfree; left|].
    rewrite IH; [reflexivity|]. intros Hin. apply Hfree. now right.
Qed.

Lemma dict_set_fresh (k v : str) (d : dict) :
  ~ In k (map fst d) -> dict_set k v d = d ++ [(k, v)].
Proof.
  induction d as [|[k' v'] d IH]; intros Hfresh; [reflexivity|].
  simpl in *. rewrite str_eqb_neq by (intros ->; apply Hfresh; now left).
  rewrite IH; [reflexivity|]. intros Hin. apply Hfresh. now right.
Qed.

Lemma dict_update_distinct (pairs : list (str * str)) :
  forall d0,
    NoDup (map fst (d0 ++ pairs)) ->
    dict_update (map (fun kv => [fst kv; snd kv]) pairs) d0 = Some (d0 ++ pairs).
Proof.
  induction pairs as [|[k v] pairs IH]; intros d0 Hnodup.
  - now rewrite app_nil_r.
  - cbn [map dict_update fst snd].
    rewrite map_app in Hnodup. cbn [map fst] in Hnodup.
    assert (Hfresh : ~ In k (map fst d0)).
    { apply NoDup_remove_2 in Hnodup. intros Hin. apply Hnodup.
      apply in_or_app. now left. }
    rewrite dict_set_fresh by exact Hfresh.
    rewrite IH; [now rewrite <- app_assoc|].
    rewrite <- app_assoc, map_app. exact Hnodup.
Qed.

Lemma slice_from_3 {A} (a b c : A) (l : list A) :
  slice (Some 3) None (a :: b :: c :: l) = l.
Proof.
  unfold slice, norm_index, len. cbn [Z.ltb Z.compare List.length].
  replace (Z.min 3 (Z.of_nat (S (S (S (List.length l)))))) with 3 by lia.
  replace (Z.to_nat (Z.of_nat (S (S (S (List.length l)))) - 3)) with (List.length l) by lia.
  cbn [Z.to_nat Pos.to_nat Pos.iter_op Nat.add skipn]. apply firstn_all.
Qed.

(** The metadata format round-trips through [fileinfo]: for a response
    "ok " followed by [key=value] items joined by NUL, with one item at
    least, keys that are distinct and hold neither ["="] nor NUL, and values
    without NUL, the call returns exactly those pairs, in order, and no
    attachment. *)
Theorem fileinfo_metadata_round_trip
    (fuel : nat) (entry path : str) (bentry bpath b : bytes)
    (pairs : list (str * str)) (w w0 w1 : World) :
  utf8_encode entry = Some bentry ->
  utf8_encode path = Some bpath ->
  _send_cmd (blit "fileinfo " ++ bentry ++ blit " " ++ bpath) w = (Ret tt, w0) ->
  get_resp default_timeout w0 = (Ret b, w1) ->
  utf8_decode_ignore b = lit "ok " ++ encode_meta pairs ->
  pairs <> [] ->
  NoDup (map fst pairs) ->
  Forall (fun kv => ~ In 61%N (fst kv) /\ ~ In 0%N (fst kv) /\ ~ In 0%N (snd kv)) pairs ->
  fileinfo fuel entry path w = (Ret (pairs, None), w1).
Proof.
  intros Hentry Hpath Hsend Hresp Htext Hne Hnodup Hfree.
  unfold fileinfo, encode. rewrite Hentry, Hpath. run. rewrite Hsend, Hresp.
  cbv zeta. rewrite Htext.
  assert (Hbin : startswith (lit "binary ") (lit "ok " ++ encode_meta pairs) = false)
    by reflexivity.
  assert (Hok : startswith (lit "ok ") (lit "ok " ++ encode_meta pairs) = true)
    by reflexivity.
  rewrite Hbin. cbn [fst snd]. rewrite Hok.
  change (lit "ok " ++ encode_meta pairs)
    with (111 :: 107 :: 32 :: encode_meta pairs)%N.
  rewrite slice_from_3. unfold encode_meta.
  rewrite split_join.
  - rewrite map_map.
    rewrite (map_ext_in _ (fun kv : str * str => [fst kv; snd kv])).
    + rewrite (dict_update_distinct pairs []) by exact Hnodup. reflexivity.
    + intros [k v] Hin. cbn [fst snd]. apply split1_at_sep.
      rewrite Forall_forall in Hfree. now destruct (Hfree _ Hin).
  - destruct pairs; [contradiction|discriminate].
  - apply Forall_map. eapply Forall_impl; [|exact Hfree].
    intros [k v] (_ & Hk & Hv) Hin. cbn [fst snd] in *.
    apply in_app_or in Hin. destruct Hin as [Hin|[Heq|Hin]]; [auto|discriminate|auto].
Qed.

End FileInfo.

Lemma fileinfo_metadata_nonempty_witness :
  let w := incoming [[x09; x00] ++ blit "ok size=3"] in
  fst (@fileinfo ascii_codec 4 (lit "SD") (lit "a.gcode") w)
  = Ret ([(lit "size", lit "3")], None)
  /\ [(lit "size", lit "3")] <> [].
Proof.
  intros w. split; [reflexivity|].
  apply (@fileinfo_metadata_nonempty ascii_codec 4 (lit "SD") (lit "a.gcode") w
           (snd (@fileinfo ascii_codec 4 (lit "SD") (lit "a.gcode") w))
           [(lit "size", lit "3")] None).
  reflexivity.
Defined.

Lemma fileinfo_metadata_round_trip_witness :
  let w := incoming [[x16; x00] ++ blit "ok size=3" ++ [x00] ++ blit "type=a=b" ++ [x00] ++ blit "k="] in
  let w0 := snd (_send_cmd (blit "fileinfo SD a.gcode") w) in
  let w1 := snd (get_resp default_timeout w0) in
  @fileinfo ascii_codec 4 (lit "SD") (lit "a.gcode") w
  = (Ret ([(lit "size", lit "3"); (lit "type", lit "a=b"); (lit "k", [])], None), w1).
Proof.
  intros w w0 w1.
  apply (@fileinfo_metadata_round_trip ascii_codec 4 (lit "SD") (lit "a.gcode")
           (blit "SD") (blit "a.gcode")
           (blit "ok size=3" ++ [x00] ++ blit "type=a=b" ++ [x00] ++ blit "k=")
           [(lit "size", lit "3"); (lit "type", lit "a=b"); (lit "k", [])] w w0 w1).
  - reflexivity.
  - reflexivity.
  - reflexivity.
  - reflexivity.
  - reflexivity.
  - discriminate.
  - repeat constructor; vm_compute; intuition discriminate.
  - repeat constructor; vm_compute; intuition discriminate.
Defined.

(** ** Entering and leaving raw mode *)

Section RawRoundTrip.
Context `{C : Codec}.


End RawRoundTrip.


(** ** Digests and refused uploads *)

Lemma slice_from_4 {A} (a b c d : A) (l : list A) :
  slice (Some 4) None (a :: b :: c :: d :: l) = l.
Proof.
  unfold slice, norm_index, len. cbn [Z.ltb Z.compare List.length].
  replace (Z.min 4 (Z.of_nat (S (S (S (S (List.length l))))))) with 4 by lia.
  replace (Z.to_nat (Z.of_nat (S (S (S (S (List.length l))))) - 4))
    with (List.length l) by lia.
  cbn [Z.to_nat Pos.to_nat Pos.iter_op Nat.add skipn]. apply firstn_all.
Qed.

Section Digests.
Context `{C : Codec}.


(** A refused upload: when the response to the negotiation line is not
    "continue", [upload_stream] raises a failure that carries the whole
    response text as its single argument, unparsed, and stops where the
    negotiation left the world, the source unread; [begin_upload] does the
    same for its own line (media type "text/gcode", destination "#"). *)
Theorem upload_negotiation_refused
    (fuel : nat) (length : Z) (mimetype upload_to cmd : str)
    (cb : option callback) (bcmd bret : bytes) (w w1 : World) :
  utf8_encode (cmd ++ lit " " ++ mimetype ++ lit " " ++ str_of_int length
                   ++ lit " " ++ upload_to) = Some bcmd ->
  _make_cmd bcmd w = (Ret bret, w1) ->
  decode_ascii_ignore bret <> lit "continue" ->
  upload_stream fuel length mimetype upload_to cmd cb w
  = (Raise (RuntimeError [decode_ascii_ignore bret]), w1)
  /\ source w1 = source w
  /\ (mimetype = lit "text/gcode" -> upload_to = lit "#" ->
      begin_upload length cmd w
      = (Raise (RuntimeError [decode_ascii_ignore bret]), w1)).
Proof.
  intros Henc Hmake Hrefused.
  split; [|split].
  - unfold upload_stream. cbv zeta. rewrite Henc. run. rewrite Hmake.
    rewrite (str_eqb_neq _ _ Hrefused). reflexivity.
  - pose proof (preserves_make_cmd source bcmd source_sock_blind w) as Hk.
    now rewrite Hmake in Hk.
  - intros -> ->. unfold begin_upload, encode. cbv zeta. rewrite Henc. run.
    rewrite Hmake. now rewrite (str_eqb_neq _ _ Hrefused).
Qed.

End Digests.


Lemma upload_negotiation_refused_witness :
  let w := with_source [blit "G28"]
             (incoming [[x0f; x00] ++ blit "error TOO_LARGE"]) in
  let w1 := snd (_make_cmd (blit "upload text/gcode 3 #") w) in
  @upload_stream ascii_codec 4 3 (lit "text/gcode") (lit "#") (lit "upload") None w
  = (Raise (RuntimeError [decode_ascii_ignore (blit "error TOO_LARGE")]), w1)
  /\ source w1 = source w
  /\ (lit "text/gcode" = lit "text/gcode" -> lit "#" = lit "#" ->
      @begin_upload ascii_codec 3 (lit "upload") w
      = (Raise (RuntimeError [decode_ascii_ignore (blit "error TOO_LARGE")]), w1)).
Proof.
  intros w w1.
  apply (@upload_negotiation_refused ascii_codec 4 3 (lit "text/gcode") (lit "#")
           (lit "upload") None (blit "upload text/gcode 3 #") (blit "error TOO_LARGE")
           w w1).
  - reflexivity.
  - reflexivity.
  - vm_compute. discriminate.
Defined.
